(** * pdfassistant: chunking, vector store, upload route and RAG query

    A shallow embedding of the retrieval core of the PDF assistant:
    - [utils/pdf_parser.py]   ([split_into_chunks]),
    - [utils/vector_store.py] (class [VectorStore]),
    - [app/routes.py]         ([upload_file]),
    - [utils/rag.py]          ([RAGSystem.query]).

    Python objects are modelled by explicit state passing.  A Python call
    that may raise returns a [res]; a [try ... except Exception] block is a
    [match] on it.  Only subclasses of [Exception] are modelled. *)

From Stdlib Require Import ZArith List String Ascii Bool Lia Sorting.Sorted.
From stdpp Require Import base option list strings gmap pretty.

Open Scope string_scope.
Open Scope list_scope.
Open Scope nat_scope.

(** ** Python exceptions and logging *)

(** An exception carries the text that [str(e)] yields. *)
Inductive exn := Exception (msg : string).

Definition exn_str (e : exn) : string := match e with Exception m => m end.

Inductive res (A : Type) :=
| Ret (a : A)
| Raise (e : exn).
Arguments Ret {A} a.
Arguments Raise {A} e.

Definition is_ret {A} (r : res A) : bool :=
  match r with Ret _ => true | Raise _ => false end.

(** Records emitted through [logging.getLogger(__name__)]. *)
Inductive log_record :=
| LogInfo (msg : string)
| LogWarning (msg : string)
| LogError (msg : string).

(** [sep.join(parts)] *)
Fixpoint str_join (sep : string) (parts : list string) : string :=
  match parts with
  | [] => ""
  | [p] => p
  | p :: rest => p +:+ sep +:+ str_join sep rest
  end.

(** ** Numbers the code leaves to numpy and FAISS

    Embedding components are [float32] and distances are computed inside
    FAISS.  Floating-point arithmetic is not modelled: the component type,
    the distance type, the squared-L2 distance and the comparison of
    distances are an interface, and every statement below holds for each
    implementation of it.

    FAISS fills the result slots of a search with the largest [float32]
    and the label [-1], and replaces a slot only by a smaller distance.
    [in_range] tells whether a distance is below that value: a distance
    that overflowed to infinity, or is NaN, is not, and the vector is not
    reported.  [unfilled] is the distance left in a slot that was not
    filled. *)
Class Numeric := {
  scalar : Type;
  score : Type;
  timestamp : Type;
  l2_distance : list scalar → list scalar → score;
  score_leb : score → score → bool;
  in_range : score → bool;
  unfilled : score
}.

(** Integer arithmetic with the range of [float32], used for the concrete
    scenarios: distances are exact, and a distance from the largest
    [float32], [2^128 - 2^104], on is out of range, as one that overflows
    is.  Rounding is not modelled. *)
Definition z_l2_distance (x y : list Z) : Z :=
  foldr Z.add 0%Z (zip_with (λ a b, (a - b) * (a - b))%Z x y).

Definition float32_max : Z := (2 ^ 128 - 2 ^ 104)%Z.

#[export] Instance ZNumeric : Numeric := {|
  scalar := Z;
  score := Z;
  timestamp := Z;
  l2_distance := z_l2_distance;
  score_leb := Z.leb;
  in_range := λ dist, negb (float32_max <=? dist)%Z;
  unfilled := float32_max
|}.

(** ** utils/pdf_parser.py

    A Python [str] is modelled by a [string] whose characters are code
    points below 256. *)
Module Chunker.

Definition len (s : string) : Z := Z.of_nat (String.length s).

(** [str.isspace] on one character, which is also what [str.strip] and
    the pattern [\s] test. *)
Definition py_isspace (c : ascii) : bool :=
  let n := nat_of_ascii c in
  ((9 <=? n) && (n <=? 13) || (28 <=? n) && (n <=? 32)
   || (n =? 133) || (n =? 160))%nat.

Fixpoint lstrip (s : string) : string :=
  match s with
  | EmptyString => EmptyString
  | String c rest => if py_isspace c then lstrip rest else s
  end.

Fixpoint rstrip (s : string) : string :=
  match s with
  | EmptyString => EmptyString
  | String c rest =>
      match rstrip rest with
      | EmptyString => if py_isspace c then EmptyString else String c EmptyString
      | r => String c r
      end
  end.

(** [s.strip()] *)
Definition strip (s : string) : string := rstrip (lstrip s).

Definition newline : ascii := ascii_of_nat 10.

Definition blank_line : string := String newline (String newline EmptyString).

(** [text.split('\n\n')], scanning from the left; [cur] is the piece read
    so far. *)
Fixpoint split_blank_lines (s cur : string) : list string :=
  match s with
  | EmptyString => [cur]
  | String c rest =>
      match rest with
      | String c' rest' =>
          if Ascii.eqb c newline && Ascii.eqb c' newline
          then cur :: split_blank_lines rest' EmptyString
          else split_blank_lines rest (cur +:+ String c EmptyString)
      | EmptyString => [cur +:+ String c EmptyString]
      end
  end.

Definition is_empty (s : string) : bool :=
  match s with EmptyString => true | _ => false end.

(** [[p.strip() for p in text.split('\n\n') if p.strip()]] *)
Definition paragraphs_of (text : string) : list string :=
  omap (λ p, if is_empty (strip p) then None else Some (strip p))
       (split_blank_lines text EmptyString).

Definition is_terminal (c : ascii) : bool :=
  Ascii.eqb c "."%char || Ascii.eqb c "!"%char || Ascii.eqb c "?"%char.

(** Where the scan of [re.split(r'(?<=[.!?])\s+', paragraph)] stands:
    inside a separator that is being consumed, or outside one, knowing
    whether the previous character is one of [.!?]. *)
Inductive scan :=
| InSeparator
| Outside (after_terminal : bool).

Fixpoint split_sentences_from (m : scan) (s cur : string) : list string :=
  match s with
  | EmptyString => [cur]
  | String c rest =>
      match m with
      | InSeparator =>
          if py_isspace c then split_sentences_from InSeparator rest cur
          else split_sentences_from (Outside (is_terminal c)) rest
                 (cur +:+ String c EmptyString)
      | Outside after_terminal =>
          if after_terminal && py_isspace c
          then cur :: split_sentences_from InSeparator rest EmptyString
          else split_sentences_from (Outside (is_terminal c)) rest
                 (cur +:+ String c EmptyString)
      end
  end.

(** [re.split(r'(?<=[.!?])\s+', paragraph)] *)
Definition split_sentences (paragraph : string) : list string :=
  split_sentences_from (Outside false) paragraph EmptyString.

Definition is_nil {A} (l : list A) : bool :=
  match l with [] => true | _ => false end.

(** [sum(len(s) for s in l)] *)
Definition sum_len (l : list string) : Z := foldr (λ s n, (len s + n)%Z) 0%Z l.

(** The variables of the loop over the sentences of one oversized
    paragraph; [s_chunks] is the list [chunks] of the function. *)
Record sentence_state := {
  s_chunks : list string;
  sentence_chunk : list string;
  sentence_chunk_length : Z
}.

Definition sentence_step (chunk_size : Z) (st : sentence_state) (sentence : string)
    : sentence_state :=
  let st1 :=
    if (sentence_chunk_length st + len sentence >? chunk_size)%Z
       && negb (is_nil (sentence_chunk st))
    then
      let last_sentences :=
        if (2 <=? length (sentence_chunk st))%nat
        then drop (length (sentence_chunk st) - 2) (sentence_chunk st)
        else sentence_chunk st in
      {| s_chunks := s_chunks st ++ [str_join " " (sentence_chunk st)];
         sentence_chunk := last_sentences;
         sentence_chunk_length :=
           (sum_len last_sentences + Z.of_nat (length last_sentences) - 1)%Z |}
    else st in
  {| s_chunks := s_chunks st1;
     sentence_chunk := sentence_chunk st1 ++ [sentence];
     sentence_chunk_length := (sentence_chunk_length st1 + len sentence + 1)%Z |}.

(** The block under [if len(paragraph) > chunk_size], up to the reset of
    [current_chunk]: from [chunks] to the new [chunks]. *)
Definition split_long_paragraph (chunk_size : Z) (chunks : list string)
    (paragraph : string) : list string :=
  let st := foldl (sentence_step chunk_size)
              {| s_chunks := chunks; sentence_chunk := [];
                 sentence_chunk_length := 0 |}
              (split_sentences paragraph) in
  if is_nil (sentence_chunk st) then s_chunks st
  else s_chunks st ++ [str_join " " (sentence_chunk st)].

(** The variables of the loop over the paragraphs. *)
Record chunk_state := {
  chunks : list string;
  current_chunk : list string;
  current_length : Z
}.

Definition paragraph_step (chunk_size : Z) (st : chunk_state) (paragraph : string)
    : chunk_state :=
  if (current_length st + len paragraph >? chunk_size)%Z then
    let chunks1 :=
      if is_nil (current_chunk st) then chunks st
      else chunks st ++ [str_join blank_line (current_chunk st)] in
    if (len paragraph >? chunk_size)%Z then
      {| chunks := split_long_paragraph chunk_size chunks1 paragraph;
         current_chunk := []; current_length := 0 |}
    else
      match (if (1 <? length (current_chunk st))%nat
             then last (current_chunk st) else None) with
      | Some kept =>
          {| chunks := chunks1; current_chunk := [kept; paragraph];
             current_length := (len kept + len paragraph)%Z |}
      | None =>
          {| chunks := chunks1; current_chunk := [paragraph];
             current_length := (0 + len paragraph)%Z |}
      end
  else
    {| chunks := chunks st; current_chunk := current_chunk st ++ [paragraph];
       current_length := (current_length st + len paragraph + 2)%Z |}.

(** The [text] argument: a string, or a list of strings that
    [ensure_text_is_string] joins with spaces. *)
Inductive text_arg :=
| Str (s : string)
| StrList (l : list string).

Definition ensure_text_is_string (text : text_arg) : string :=
  match text with
  | Str s => s
  | StrList l => str_join " " l
  end.

(** [split_into_chunks(text, chunk_size, overlap)]; the body never reads
    [overlap]. *)
Definition split_into_chunks (text : text_arg) (chunk_size overlap : Z) : list string :=
  let text := ensure_text_is_string text in
  if is_empty text then []
  else
    let st := foldl (paragraph_step chunk_size)
                {| chunks := []; current_chunk := []; current_length := 0 |}
                (paragraphs_of text) in
    if is_nil (current_chunk st) then chunks st
    else chunks st ++ [str_join blank_line (current_chunk st)].

(** Whether a string contains a whitespace character. *)
Fixpoint has_space (s : string) : bool :=
  match s with
  | EmptyString => false
  | String c rest => py_isspace c || has_space rest
  end.

(** A bound on the number of chunks: per paragraph at most one closed
    chunk, one chunk per step of the sentence loop, and the chunk left
    after that loop; and the last chunk of the function. *)
Definition chunk_bound (text : string) : nat :=
  1 + foldr (λ p n, 2 + length (split_sentences p) + n) 0 (paragraphs_of text).

(** "Every chunk is cut at [chunk_size]." *)
Definition cut_at_chunk_size (text : text_arg) (chunk_size overlap : Z) : Prop :=
  Forall (λ c, (len c <= chunk_size)%Z) (split_into_chunks text chunk_size overlap).

(** Whether every character of a string is whitespace. *)
Fixpoint all_space (s : string) : bool :=
  match s with
  | EmptyString => true
  | String c rest => py_isspace c && all_space rest
  end.

(** Whether a string contains two consecutive newlines. *)
Fixpoint has_blank_line (s : string) : bool :=
  match s with
  | String c (String c' _ as rest) =>
      (Ascii.eqb c newline && Ascii.eqb c' newline) || has_blank_line rest
  | _ => false
  end.

(** *** [improved_chunking] *)

(** Where the test of the lookahead [(?=\n\s*#+\s+)] stands after the
    newline: still in [\s*], or in [#+]. *)
Inductive heading_scan :=
| BeforeHashes
| InHashes.

Fixpoint heading_from (m : heading_scan) (s : string) : bool :=
  match s with
  | EmptyString => false
  | String c rest =>
      match m with
      | BeforeHashes =>
          if py_isspace c then heading_from BeforeHashes rest
          else if Ascii.eqb c "#"%char then heading_from InHashes rest
          else false
      | InHashes =>
          if Ascii.eqb c "#"%char then heading_from InHashes rest
          else py_isspace c
      end
  end.

(** Whether the pattern [\n\s*#+\s+] matches at the start of [s]. *)
Definition starts_heading (s : string) : bool :=
  match s with
  | EmptyString => false
  | String c rest => Ascii.eqb c newline && heading_from BeforeHashes rest
  end.

(** [re.split(r'(?=\n\s*#+\s+)', text)]: the text is cut, without losing
    a character, before every newline that starts a heading; [cur] is the
    piece read so far. *)
Fixpoint split_sections (s cur : string) : list string :=
  match s with
  | EmptyString => [cur]
  | String c rest =>
      if starts_heading s then cur :: split_sections rest (String c EmptyString)
      else split_sections rest (cur +:+ String c EmptyString)
  end.

(** One element of the list [metadata]. *)
Record chunk_metadata := {
  source : string;
  length_of : nat
}.

Definition section_metadata (chunk_text : string) : chunk_metadata :=
  {| source := "section"; length_of := String.length chunk_text |}.

(** The variables of [improved_chunking] inside the loop over the
    paragraphs of one section. *)
Record packing_state := {
  p_chunks : list string;
  p_metadata : list chunk_metadata;
  p_current : list string;
  p_length : Z
}.

Definition packing_step (chunk_size : Z) (st : packing_state) (para : string)
    : packing_state :=
  let st1 :=
    if (p_length st + len para >? chunk_size)%Z && negb (is_nil (p_current st)) then
      let chunk_text := str_join blank_line (p_current st) in
      {| p_chunks := p_chunks st ++ [chunk_text];
         p_metadata := p_metadata st ++ [section_metadata chunk_text];
         p_current := []; p_length := 0 |}
    else st in
  {| p_chunks := p_chunks st1; p_metadata := p_metadata st1;
     p_current := p_current st1 ++ [para];
     p_length := (p_length st1 + len para)%Z |}.

(** The body of the loop over the sections. *)
Definition section_step (chunk_size : Z) (acc : list string * list chunk_metadata)
    (section : string) : list string * list chunk_metadata :=
  if (len section >? chunk_size)%Z then
    let st := foldl (packing_step chunk_size)
                {| p_chunks := acc.1; p_metadata := acc.2; p_current := [];
                   p_length := 0 |}
                (split_blank_lines section EmptyString) in
    if is_nil (p_current st) then (p_chunks st, p_metadata st)
    else
      let chunk_text := str_join blank_line (p_current st) in
      (p_chunks st ++ [chunk_text], p_metadata st ++ [section_metadata chunk_text])
  else (acc.1 ++ [section], acc.2 ++ [section_metadata section]).

(** [improved_chunking(text, chunk_size)]: the pair [(chunks, metadata)]. *)
Definition improved_chunking (text : string) (chunk_size : Z)
    : list string * list chunk_metadata :=
  foldl (section_step chunk_size) ([], []) (split_sections text EmptyString).

End Chunker.

(** ** utils/vector_store.py *)
Module VectorStore.
Section Store.
Context `{Num : Numeric}.

Abbreviation embedding := (list scalar).

(** [faiss.IndexFlatL2]: the dimension [d] and the stored vectors, in
    insertion order.  [ntotal] is the number of stored vectors. *)
Record IndexFlatL2 := { d : nat; xb : list embedding }.

Definition ntotal (ix : IndexFlatL2) : nat := length (xb ix).

(** What callers pass as [embeddings]: a sequence of vectors, or, from
    [upload_file], the dict [{'chunks': ..., 'embeddings': ...}] that
    [generate_embeddings] returns. *)
Inductive embeddings_arg :=
| EmbVectors (vs : list embedding)
| EmbDict (chunks : list string) (vs : list embedding).

(** [len(embeddings)]: a dict has two keys. *)
Definition emb_len (e : embeddings_arg) : nat :=
  match e with
  | EmbVectors vs => length vs
  | EmbDict _ _ => 2
  end.

(** [self.index.add(np.array(embeddings).astype('float32'))].
    The conversion of a dict to a [float32] array raises [TypeError], and
    that of vectors of different lengths raises [ValueError] (the text of
    numpy depends on its version; its first sentence is kept).
    [index.add] unpacks [n, d = x.shape], which fails on an empty
    sequence, and asserts [d == self.d] without a message.  On an
    exception the index is unchanged. *)
Definition index_add (ix : IndexFlatL2) (e : embeddings_arg) : res IndexFlatL2 :=
  match e with
  | EmbDict _ _ =>
      Raise (Exception "float() argument must be a string or a real number, not 'dict'")
  | EmbVectors vs =>
      match vs with
      | [] => Raise (Exception "not enough values to unpack (expected 2, got 1)")
      | v :: rest =>
          if negb (forallb (λ v', Nat.eqb (length v') (length v)) rest)
          then Raise (Exception "setting an array element with a sequence.")
          else if Nat.eqb (length v) (d ix)
          then Ret {| d := d ix; xb := xb ix ++ vs |}
          else Raise (Exception EmptyString)
      end
  end.

(** Insertion into a list of hits sorted by ascending distance; a new hit
    goes before the hits it ties with, so that folding from the right
    keeps equal distances in index order. *)
Fixpoint insert_hit (h : score * Z) (hs : list (score * Z)) : list (score * Z) :=
  match hs with
  | [] => [h]
  | h' :: rest =>
      if score_leb (fst h) (fst h') then h :: hs else h' :: insert_hit h rest
  end.

Definition sort_hits (hs : list (score * Z)) : list (score * Z) :=
  foldr insert_hit [] hs.

(** All stored vectors with their distance to the query and their label. *)
Definition all_hits (ix : IndexFlatL2) (q : embedding) : list (score * Z) :=
  imap (λ i v, (l2_distance q v, Z.of_nat i)) (xb ix).

(** The stored vectors that a search can report: those at a distance in
    range. *)
Definition reported (ix : IndexFlatL2) (q : embedding) : list (score * Z) :=
  filter (λ hit, in_range hit.1 = true) (all_hits ix q).

(** The [k] result slots of a search: the nearest reported vectors as
    [(distance, label)], nearest first, and after them the slots that
    were not filled, with the label [-1]. *)
Definition nearest (ix : IndexFlatL2) (q : embedding) (k : nat) : list (score * Z) :=
  let found := take k (sort_hits (reported ix q)) in
  found ++ replicate (k - length found) (unfilled, (-1)%Z).

(** [self.index.search(x, k)] for one query row.  The Python wrapper
    asserts the query dimension and [k > 0], both without a message. *)
Definition index_search (ix : IndexFlatL2) (q : embedding) (k : Z) : res (list (score * Z)) :=
  if negb (Nat.eqb (length q) (d ix)) then Raise (Exception EmptyString)
  else if (k <=? 0)%Z then Raise (Exception EmptyString)
  else Ret (nearest ix q (Z.to_nat k)).

(** One entry of [self.documents]. *)
Record DocInfo := {
  chunks : list string;
  chunk_start_idx : nat;
  filename : string;
  upload_time : option timestamp;
  text : string
}.

(** The fields of a [VectorStore] object. *)
Record t := {
  dimension : nat;
  index : IndexFlatL2;
  documents : gmap string DocInfo;
  doc_ids : list string;
  store_path : string
}.

Definition set_index (ix : IndexFlatL2) (self : t) : t :=
  {| dimension := dimension self; index := ix; documents := documents self;
     doc_ids := doc_ids self; store_path := store_path self |}.

Definition set_documents (ds : gmap string DocInfo) (self : t) : t :=
  {| dimension := dimension self; index := index self; documents := ds;
     doc_ids := doc_ids self; store_path := store_path self |}.

Definition set_doc_ids (ids : list string) (self : t) : t :=
  {| dimension := dimension self; index := index self; documents := documents self;
     doc_ids := ids; store_path := store_path self |}.

(** One element of the list that [search] returns. *)
Record SearchResult := {
  doc_id : string;
  chunk : string;
  score_of : score
}.

(** The body of the loop of [search] for one raw hit: [None] is
    [continue]. *)
Definition resolve_hit (self : t) (hit : score * Z) : option SearchResult :=
  let '(dist, idx) := hit in
  if ((idx <? 0) || (idx >=? Z.of_nat (length (doc_ids self))))%Z then None
  else
    id ← doc_ids self !! Z.to_nat idx;
    info ← documents self !! id;
    let relative_idx := (idx - Z.of_nat (chunk_start_idx info))%Z in
    if ((relative_idx <? 0) || (relative_idx >=? Z.of_nat (length (chunks info))))%Z
    then None
    else
      chunk_text ← chunks info !! Z.to_nat relative_idx;
      Some {| doc_id := id; chunk := chunk_text; score_of := dist |}.

(** [VectorStore.search] *)
Definition search (self : t) (query_embedding : embedding) (top_k : Z)
    (threshold : option score) : res (list SearchResult) :=
  if Nat.eqb (ntotal (index self)) 0 then Ret []
  else
    match index_search (index self) query_embedding
            (Z.min top_k (Z.of_nat (ntotal (index self)))) with
    | Raise e => Raise e
    | Ret hits =>
        let results := omap (resolve_hit self) hits in
        Ret match threshold with
            | None => results
            | Some th => filter (λ r, score_leb (score_of r) th = true) results
            end
    end.

(** [VectorStore.similarity_search] *)
Definition similarity_search (self : t) (query_embedding : embedding) (k : Z)
    (threshold : option score) : res (list SearchResult) :=
  search self query_embedding k threshold.

(** [VectorStore.has_document] *)
Definition has_document (self : t) (id : string) : bool :=
  bool_decide (is_Some (documents self !! id)).

(** *** Persistence

    What [pickle.load] finds in the store file.  [Pickled] is a pickled
    dict, each of whose three keys may be missing; the index entry is the
    byte string of [faiss.serialize_index], which [faiss.deserialize_index]
    either maps back to the index or rejects.  [Unreadable] is every other
    content: a truncated or foreign file, or a pickle of something that is
    not a dict. *)
Inductive index_blob :=
| Serialized (ix : IndexFlatL2)
| BadBlob.

Inductive store_file :=
| Pickled (docs : option (gmap string DocInfo)) (ids : option (list string))
    (blob : option index_blob)
| Unreadable.

(** [faiss.serialize_index] and [faiss.deserialize_index] *)
Definition serialize_index (ix : IndexFlatL2) : index_blob := Serialized ix.

Definition deserialize_index (b : index_blob) : res IndexFlatL2 :=
  match b with
  | Serialized ix => Ret ix
  | BadBlob => Raise (Exception "Error in faiss::Index* faiss::read_index")
  end.

(** The object, the files by path, and the log. *)
Record World := {
  store : t;
  disk : gmap string store_file;
  log : list log_record
}.

Definition set_store (s : t) (w : World) : World :=
  {| store := s; disk := disk w; log := log w |}.

Definition set_disk (dk : gmap string store_file) (w : World) : World :=
  {| store := store w; disk := dk; log := log w |}.

Definition emit (r : log_record) (w : World) : World :=
  {| store := store w; disk := disk w; log := log w ++ [r] |}.

(** How the operating system treats one attempt to write the store file:
    [open(path, 'wb')] fails, or it succeeds and [pickle.dump] fails after
    part of the bytes, or the whole write succeeds. *)
Inductive io_outcome :=
| WriteCompletes
| OpenFails
| WriteFailsMidway.

(** [open(self.store_path, 'wb')]: on success the file exists and is
    empty. *)
Definition open_wb (io : io_outcome) (w : World) : res unit * World :=
  match io with
  | OpenFails => (Raise (Exception "Permission denied"), w)
  | _ => (Ret (), set_disk (<[store_path (store w) := Unreadable]> (disk w)) w)
  end.

(** [pickle.dump({...}, f)] into the file opened by [open_wb]. *)
Definition pickle_dump (io : io_outcome) (w : World) : res unit * World :=
  match io with
  | WriteCompletes =>
      (Ret (),
       set_disk (<[store_path (store w) :=
                    Pickled (Some (documents (store w))) (Some (doc_ids (store w)))
                      (Some (serialize_index (index (store w))))]> (disk w)) w)
  | _ => (Raise (Exception "No space left on device"), w)
  end.

(** [VectorStore.save] *)
Definition save (io : io_outcome) (w : World) : World :=
  let failed e w := emit (LogError ("Failed to save vector store: " +:+ exn_str e)) w in
  match open_wb io w with
  | (Raise e, w1) => failed e w1
  | (Ret _, w1) =>
      match pickle_dump io w1 with
      | (Raise e, w2) => failed e w2
      | (Ret _, w2) =>
          emit (LogInfo ("Vector store saved with "
                         +:+ pretty (length (doc_ids (store w2))) +:+ " entries")) w2
      end
  end.

(** The [try] block of [load], run on the content of the store file: the
    assignments made before an exception stay. *)
Definition load_try (f : store_file) (self : t) : res unit * t :=
  match f with
  | Unreadable => (Raise (Exception "pickle data was truncated"), self)
  | Pickled docs ids blob =>
      let self1 := set_documents (default ∅ docs) self in
      let self2 := set_doc_ids (default [] ids) self1 in
      match blob with
      | None => (Ret (), self2)
      | Some b =>
          match deserialize_index b with
          | Ret ix => (Ret (), set_index ix self2)
          | Raise e => (Raise e, self2)
          end
      end
  end.

(** [VectorStore.load], as a method that could raise. *)
Definition load (w : World) : res unit * World :=
  match disk w !! store_path (store w) with
  | Some f =>
      match load_try f (store w) with
      | (Ret _, self') =>
          (Ret (),
           emit (LogInfo ("Vector store loaded with "
                          +:+ pretty (length (doc_ids self')) +:+ " entries"))
             (set_store self' w))
      | (Raise e, self') =>
          (Ret (),
           set_store (set_doc_ids [] (set_documents ∅ self'))
             (emit (LogError ("Failed to load vector store: " +:+ exn_str e)) w))
      end
  | None =>
      (Ret (), emit (LogInfo "No vector store found, starting with empty store") w)
  end.

(** *** Construction *)

Definition is_slash (c : ascii) : bool := Ascii.eqb c "/"%char.

(** [p[:p.rfind('/') + 1]] *)
Fixpoint through_last_slash (p : string) : string :=
  match p with
  | EmptyString => EmptyString
  | String c rest =>
      match through_last_slash rest with
      | EmptyString => if is_slash c then String c EmptyString else EmptyString
      | head => String c head
      end
  end.

Fixpoint all_slashes (s : string) : bool :=
  match s with
  | EmptyString => true
  | String c rest => is_slash c && all_slashes rest
  end.

(** [s.rstrip('/')] *)
Fixpoint rstrip_slashes (s : string) : string :=
  match s with
  | EmptyString => EmptyString
  | String c rest =>
      match rstrip_slashes rest with
      | EmptyString => if is_slash c then EmptyString else String c EmptyString
      | r => String c r
      end
  end.

(** [os.path.dirname(p)] on a POSIX path: what comes before the last
    slash, without its trailing slashes unless it consists of slashes.
    A path without a slash has the empty directory name. *)
Definition dirname (p : string) : string :=
  let head := through_last_slash p in
  if all_slashes head then head else rstrip_slashes head.

(** [os.path.exists(p)], given the directories that exist beside the
    files of the disk.  The empty path does not exist. *)
Definition path_exists (dirs : gset string) (dk : gmap string store_file) (p : string)
    : bool :=
  negb (Chunker.is_empty p)
  && (bool_decide (p ∈ dirs) || bool_decide (is_Some (dk !! p))).

(** How the operating system treats [os.makedirs] of a path that is not
    empty. *)
Inductive makedirs_outcome :=
| MakedirsCompletes
| MakedirsFails.

(** [os.makedirs(directory)]: it raises [FileNotFoundError] on the empty
    path.  The directories are not part of [World]: nothing else in the
    class asks for them. *)
Definition makedirs (mk : makedirs_outcome) (directory : string) : res unit :=
  if Chunker.is_empty directory
  then Raise (Exception "[Errno 2] No such file or directory: ''")
  else
    match mk with
    | MakedirsCompletes => Ret ()
    | MakedirsFails => Raise (Exception "Permission denied")
    end.

(** [VectorStore._ensure_directory_exists] *)
Definition _ensure_directory_exists (dirs : gset string) (mk : makedirs_outcome)
    (w : World) : res unit * World :=
  let directory := dirname (store_path (store w)) in
  if path_exists dirs (disk w) directory then (Ret (), w)
  else
    match makedirs mk directory with
    | Raise e => (Raise e, w)
    | Ret _ =>
        (Ret (), emit (LogInfo ("Created directory for vector store: " +:+ directory)) w)
    end.

(** The object built by the first five assignments of [__init__]. *)
Definition fresh (dimension : nat) (store_path : string) : t :=
  {| dimension := dimension; index := {| d := dimension; xb := [] |};
     documents := ∅; doc_ids := []; store_path := store_path |}.

(** [__init__] where the directory of the store file exists, so that
    [_ensure_directory_exists] does nothing: the assignments and
    [self.load()]. *)
Definition init (dimension : nat) (store_path : string)
    (dk : gmap string store_file) (lg : list log_record) : res unit * World :=
  load {| store := fresh dimension store_path; disk := dk; log := lg |}.

(** [VectorStore.__init__]: when the directory step raises, so does the
    constructor, before [load] runs. *)
Definition __init__ (dirs : gset string) (mk : makedirs_outcome) (dimension : nat)
    (store_path : string) (dk : gmap string store_file) (lg : list log_record)
    : res unit * World :=
  match _ensure_directory_exists dirs mk
          {| store := fresh dimension store_path; disk := dk; log := lg |} with
  | (Raise e, w) => (Raise e, w)
  | (Ret _, w) => load w
  end.

(** *** Adding and removing documents *)

(** The [metadata] dict, read with [.get('filename', document_id)] and
    [.get('upload_time')]. *)
Record Metadata := {
  md_filename : option string;
  md_upload_time : option timestamp
}.

Definition no_metadata : Metadata :=
  {| md_filename := None; md_upload_time := None |}.

(** [VectorStore.add_document]: the entry of [self.documents] is written
    before [index.add] can raise. *)
Definition add_document (io : io_outcome) (document_id : string)
    (text_chunks : list string) (embeddings : embeddings_arg)
    (metadata : option Metadata) (w : World) : res string * World :=
  let metadata := default no_metadata metadata in
  let self := store w in
  let info := {| chunks := text_chunks;
                 chunk_start_idx := length (doc_ids self);
                 filename := default document_id (md_filename metadata);
                 upload_time := md_upload_time metadata;
                 text := str_join " " text_chunks |} in
  let self1 := set_documents (<[document_id := info]> (documents self)) self in
  match index_add (index self1) embeddings with
  | Raise e => (Raise e, set_store self1 w)
  | Ret ix =>
      let self2 := set_index ix self1 in
      let self3 :=
        set_doc_ids (doc_ids self2 ++ replicate (length text_chunks) document_id) self2 in
      let w1 := save io (set_store self3 w) in
      (Ret document_id,
       emit (LogInfo ("Document " +:+ document_id +:+ " added with "
                      +:+ pretty (length text_chunks) +:+ " chunks")) w1)
  end.

(** [VectorStore.remove_document] *)
Definition remove_document (io : io_outcome) (id : string) (w : World) : bool * World :=
  if negb (has_document (store w) id) then
    (false, emit (LogWarning ("Document " +:+ id +:+ " not found in vector store")) w)
  else
    let self1 := set_documents (delete id (documents (store w))) (store w) in
    let w1 := save io (set_store self1 w) in
    (true, emit (LogInfo ("Document " +:+ id +:+ " removed from vector store")) w1).

(** A mutating call with its arguments, and a run of such calls; each call
    meets its own outcome of the file system.  A call that raises leaves
    the object as it was at the exception, and the run goes on. *)
Inductive call :=
| AddDocument (io : io_outcome) (document_id : string) (text_chunks : list string)
    (embeddings : embeddings_arg) (metadata : option Metadata)
| RemoveDocument (io : io_outcome) (id : string).

Definition step (w : World) (c : call) : World :=
  match c with
  | AddDocument io id cs es md => snd (add_document io id cs es md w)
  | RemoveDocument io id => snd (remove_document io id w)
  end.

Definition run (cs : list call) (w : World) : World := foldl step w cs.

(** The precondition of [add_document]: [len(chunks) == len(embeddings)]. *)
Definition precondition (c : call) : Prop :=
  match c with
  | AddDocument _ _ text_chunks embeddings _ => length text_chunks = emb_len embeddings
  | RemoveDocument _ _ => True
  end.

(** The call is not [add_document] for [id]. *)
Definition does_not_add (id : string) (c : call) : Prop :=
  match c with
  | AddDocument _ document_id _ _ _ => document_id ≠ id
  | RemoveDocument _ _ => True
  end.

Definition io_of (c : call) : io_outcome :=
  match c with
  | AddDocument io _ _ _ _ => io
  | RemoveDocument io _ => io
  end.

Definition with_io (io : io_outcome) (c : call) : call :=
  match c with
  | AddDocument _ id cs es md => AddDocument io id cs es md
  | RemoveDocument _ id => RemoveDocument io id
  end.

(** The call changes the store and returns: [add_document] does not
    raise, [remove_document] finds the document. *)
Definition mutates (w : World) (c : call) : Prop :=
  match c with
  | AddDocument io id cs es md => is_ret (fst (add_document io id cs es md w)) = true
  | RemoveDocument _ id => has_document (store w) id = true
  end.

(** The store file holds the object as it is in memory. *)
Definition persisted (w : World) : Prop :=
  disk w !! store_path (store w)
  = Some (Pickled (Some (documents (store w))) (Some (doc_ids (store w)))
            (Some (serialize_index (index (store w))))).

(** An all-or-nothing commit: the store file is the one from before the
    call or the full store after it. *)
Definition all_or_nothing (before after : World) : Prop :=
  disk after !! store_path (store after) = disk before !! store_path (store after)
  ∨ persisted after.

(** A result stands for a chunk of a document that is in the document
    map, reached from an id-lookup entry at an in-range chunk index. *)
Definition live (self : t) (r : SearchResult) : Prop :=
  ∃ (idx : nat) (info : DocInfo),
    doc_ids self !! idx = Some (doc_id r)
    ∧ documents self !! doc_id r = Some info
    ∧ (chunk_start_idx info ≤ idx)%nat
    ∧ chunks info !! (idx - chunk_start_idx info) = Some (chunk r).

(** The raw candidates that [search] asks the index for. *)
Definition fetched (self : t) (q : embedding) (top_k : Z) : list (score * Z) :=
  nearest (index self) q (Z.to_nat (Z.min top_k (Z.of_nat (ntotal (index self))))).

(** All index entries that resolve to a chunk of a live document. *)
Definition live_hits (self : t) (q : embedding) : list SearchResult :=
  omap (resolve_hit self) (all_hits (index self) q).

(** "With at least [top_k] live entries in the index, [search] without a
    threshold returns exactly [top_k] results." *)
Definition returns_top_k_live (self : t) (q : embedding) (top_k : Z) : Prop :=
  (Z.to_nat top_k ≤ length (live_hits self q))%nat →
  ∃ rs, search self q top_k None = Ret rs ∧ length rs = Z.to_nat top_k.

(** *** Reading documents *)

(** The dict returned by [get_document]. *)
Record DocumentView := {
  view_id : string;
  view_filename : string;
  view_upload_time : option timestamp;
  view_text : string;
  view_chunks : list string;
  view_chunks_count : nat
}.

(** [VectorStore.get_document]: [None] when the id is not in the map. *)
Definition get_document (self : t) (id : string) : option DocumentView :=
  info ← documents self !! id;
  Some {| view_id := id; view_filename := filename info;
          view_upload_time := upload_time info; view_text := text info;
          view_chunks := chunks info; view_chunks_count := length (chunks info) |}.

(** One element of the list returned by [get_all_documents]. *)
Record DocumentSummary := {
  summary_id : string;
  summary_filename : string;
  summary_upload_time : option timestamp;
  summary_chunks_count : nat
}.

Definition summary_of (id : string) (info : DocInfo) : DocumentSummary :=
  {| summary_id := id; summary_filename := filename info;
     summary_upload_time := upload_time info;
     summary_chunks_count := length (chunks info) |}.

(** [VectorStore.get_all_documents].  The loop runs over
    [self.documents.items()]; the order of a Python dict is not part of
    the model, so the list is determined up to its order. *)
Definition get_all_documents (self : t) : list DocumentSummary :=
  (λ entry, summary_of entry.1 entry.2) <$> map_to_list (documents self).

(** Ascending distance. *)
Definition by_score (r1 r2 : SearchResult) : Prop :=
  score_leb (score_of r1) (score_of r2) = true.

End Store.
End VectorStore.

(** ** app/routes.py *)
Module Routes.
Section Upload.
Context `{Num : Numeric}.
Import VectorStore.

(** The collaborators of the route: [hashlib.md5(...).hexdigest()],
    werkzeug's [secure_filename], [utils.pdf_parser.extract_text_from_pdf]
    (which opens its argument as a path, reads the file system and returns
    the extracted text or a message, always a [str]) and
    [utils.embeddings.generate_embeddings] (a model and a file cache;
    it returns the dict [{'chunks': ..., 'embeddings': ...}] or raises). *)
Context (md5_hexdigest : list Byte.byte → string).
Context (secure_filename : string → string).
Context (extract_text_from_pdf : list Byte.byte → string).
Context (generate_embeddings : string → res (list string * list (list scalar))).

Definition ascii_lower (c : ascii) : ascii :=
  let n := nat_of_ascii c in
  if ((65 <=? n) && (n <=? 90))%nat then ascii_of_nat (n + 32) else c.

Fixpoint lower (s : string) : string :=
  match s with
  | EmptyString => EmptyString
  | String c rest => String (ascii_lower c) (lower rest)
  end.

(** [filename.rsplit('.', 1)[1]] when the name has a dot. *)
Fixpoint after_last_dot (s : string) : option string :=
  match s with
  | EmptyString => None
  | String c rest =>
      match after_last_dot rest with
      | Some ext => Some ext
      | None => if Ascii.eqb c "."%char then Some rest else None
      end
  end.

(** [allowed_file], with [ALLOWED_EXTENSIONS = {'pdf'}] *)
Definition allowed_file (filename : string) : bool :=
  match after_last_dot filename with
  | Some ext => String.eqb (lower ext) "pdf"
  | None => false
  end.

(** [get_file_hash] *)
Definition get_file_hash (file_content : list Byte.byte) : string :=
  md5_hexdigest file_content.

(** [request.files.get('file')]: the name and the bytes of the upload. *)
Record Request := { file : option (string * list Byte.byte) }.

(** The JSON body and the status of the response. *)
Inductive response :=
| Error (status : nat) (error : string)
| AlreadyProcessed (document_id filename : string)
| Processed (document_id filename : string) (chunks_processed : nat).

Definition response_document_id (r : response) : option string :=
  match r with
  | Error _ _ => None
  | AlreadyProcessed id _ => Some id
  | Processed id _ _ => Some id
  end.

(** The work a request causes outside the store. *)
Inductive effect :=
| TextExtraction
| EmbeddingComputation
| IndexInsertion.

(** A [str] read as a sequence: its one-character strings. *)
Fixpoint characters (s : string) : list string :=
  match s with
  | EmptyString => []
  | String c rest => String c EmptyString :: characters rest
  end.

(** [upload_file]; [now] is the value of [time.time()]. *)
Definition upload_file (io : io_outcome) (now : timestamp) (request : Request)
    (w : World) : response * World * list effect :=
  let failure e w :=
    (Error 500 "Failed to process file",
     emit (LogError ("Error processing upload: " +:+ exn_str e)) w) in
  match file request with
  | None => (Error 400 "No file uploaded", w, [])
  | Some (name, file_content) =>
      if Chunker.is_empty name then (Error 400 "No file selected", w, [])
      else if negb (allowed_file name) then
        (Error 400 "Invalid file type. Only PDF files are allowed.", w, [])
      else
        let filename := secure_filename name in
        let file_hash := get_file_hash file_content in
        if has_document (store w) file_hash then
          (AlreadyProcessed file_hash filename, w, [])
        else
          let text_chunks := extract_text_from_pdf file_content in
          if Chunker.is_empty text_chunks then
            (Error 400 "Could not extract text from PDF", w, [TextExtraction])
          else
            match generate_embeddings text_chunks with
            | Raise e => (failure e w, [TextExtraction; EmbeddingComputation])
            | Ret (cs, vs) =>
                match add_document io file_hash (characters text_chunks) (EmbDict cs vs)
                        (Some {| md_filename := Some filename;
                                 md_upload_time := Some now |}) w with
                | (Raise e, w1) =>
                    (failure e w1,
                     [TextExtraction; EmbeddingComputation; IndexInsertion])
                | (Ret doc_id, w1) =>
                    (Processed doc_id filename (String.length text_chunks),
                     emit (LogInfo ("Successfully processed document: " +:+ filename
                                    +:+ " (ID: " +:+ doc_id +:+ ")")) w1,
                     [TextExtraction; EmbeddingComputation; IndexInsertion])
                end
            end
  end.

(** Whether a string contains a dot. *)
Fixpoint has_dot (s : string) : bool :=
  match s with
  | EmptyString => false
  | String c rest => Ascii.eqb c "."%char || has_dot rest
  end.

(** The status code of a response. *)
Definition status_of (r : response) : nat :=
  match r with
  | Error status _ => status
  | _ => 200
  end.

End Upload.
End Routes.

(** ** utils/rag.py *)
Module RAG.
Section Rag.
Context `{Num : Numeric}.

(** The Python values that flow through [query]: what the embedding
    model, the vector store and the language model hand back.  [PFloat]
    is a Python [float], [PScalar] a numpy scalar and [PArray] a
    one-dimensional numpy array.  [PObject] is any other object, given by
    the name of its type (a langchain [LLMResult], say); it has no
    [len()], no item access and the default truth value. *)
#[warnings="-register-all"]
Inductive pyval :=
| PNone
| PStr (s : string)
| PFloat (x : score)
| PScalar (x : scalar)
| PArray (v : list scalar)
| PDict (items : list (string * pyval))
| PList (items : list pyval)
| PObject (name : string).

Definition is_none (v : pyval) : bool :=
  match v with PNone => true | _ => false end.

Definition is_str (v : pyval) : bool :=
  match v with PStr _ => true | _ => false end.

(** [type(v).__name__], as the texts of [TypeError] spell it. *)
Definition type_name (v : pyval) : string :=
  match v with
  | PNone => "NoneType"
  | PStr _ => "str"
  | PFloat _ => "float"
  | PScalar _ => "numpy.float32"
  | PArray _ => "numpy.ndarray"
  | PDict _ => "dict"
  | PList _ => "list"
  | PObject name => name
  end.

(** [len(v)] *)
Definition py_len (v : pyval) : res nat :=
  match v with
  | PStr s => Ret (String.length s)
  | PArray v => Ret (length v)
  | PDict items => Ret (length items)
  | PList items => Ret (length items)
  | _ => Raise (Exception ("object of type '" +:+ type_name v +:+ "' has no len()"))
  end.

(** [v[0]] *)
Definition py_first (v : pyval) : res pyval :=
  match v with
  | PStr (String c _) => Ret (PStr (String c EmptyString))
  | PArray (x :: _) => Ret (PScalar x)
  | PList (x :: _) => Ret x
  | PStr EmptyString => Raise (Exception "string index out of range")
  | PArray [] => Raise (Exception "index 0 is out of bounds for axis 0 with size 0")
  | PList [] => Raise (Exception "list index out of range")
  | PDict _ => Raise (Exception "0")
  | PScalar _ => Raise (Exception "invalid index to scalar variable.")
  | _ => Raise (Exception ("'" +:+ type_name v +:+ "' object is not subscriptable"))
  end.

(** [key in d] and [d[key]] for a dict. *)
Fixpoint dict_get (key : string) (items : list (string * pyval)) : option pyval :=
  match items with
  | [] => None
  | (k, v) :: rest => if String.eqb k key then Some v else dict_get key rest
  end.

(** The methods an injected object may expose; [None] is a method that
    [hasattr] does not find. *)
Record EmbeddingModel := {
  encode : option (string → res pyval);
  embed_query : option (string → res pyval);
  embed_documents : option (list string → res pyval)
}.

Record LanguageModel := {
  generate : option (list string → res pyval);
  predict : option (string → res pyval);
  call : option (string → res pyval)
}.

Record Retriever := {
  search : pyval → Z → res pyval;
  similarity_search : option (string → Z → res pyval)
}.

(** The parts of the class that are text formatting and numerics:
    [str()], the rewriting of a [str] in [_format_response] (total on
    strings), the loop and f-string that build the prompt from
    [context[:5]] (it raises on documents it cannot read), the two
    orderings of [_rerank_documents] (by a stored score when the first
    document carries one, else by cosine similarity), and [bool()] of a
    number (whether it is not zero) and of an empty array ([False], or a
    [ValueError] from numpy 2.2 on). *)
Record Runtime := {
  py_str : pyval → string;
  format_text : string → string;
  build_prompt : pyval → string → res string;
  sort_by_stored_score : pyval → res (option pyval);
  sort_by_similarity : pyval → pyval → res pyval;
  float_truth : score → bool;
  scalar_truth : scalar → bool;
  empty_array_truth : res bool
}.

Context (rt : Runtime).

(** [bool(v)]: numpy raises [ValueError] on an array of two or more
    components, and tests the component of an array of one. *)
Definition py_truthy (v : pyval) : res bool :=
  match v with
  | PNone => Ret false
  | PStr s => Ret (negb (Chunker.is_empty s))
  | PFloat x => Ret (float_truth rt x)
  | PScalar x => Ret (scalar_truth rt x)
  | PArray [] => empty_array_truth rt
  | PArray [x] => Ret (scalar_truth rt x)
  | PArray (_ :: _ :: _) =>
      Raise (Exception "The truth value of an array with more than one element is ambiguous. Use a.any() or a.all()")
  | PDict items => Ret (negb (Chunker.is_nil items))
  | PList items => Ret (negb (Chunker.is_nil items))
  | PObject _ => Ret true
  end.

(** The fields of a [RAGSystem] object. *)
Record t := {
  vector_store : Retriever;
  embedding_model : option EmbeddingModel;
  is_sentence_transformer : bool;
  llm_model : option LanguageModel
}.

(** [RAGSystem.__init__]; [default_model] is the outcome of importing and
    loading the default SentenceTransformer. *)
Definition init (default_model : option EmbeddingModel) (vector_store : Retriever)
    (embedding_model : option EmbeddingModel) (llm_model : option LanguageModel) : t :=
  match embedding_model with
  | None =>
      {| vector_store := vector_store; embedding_model := default_model;
         is_sentence_transformer := bool_decide (is_Some default_model);
         llm_model := llm_model |}
  | Some m =>
      {| vector_store := vector_store; embedding_model := Some m;
         is_sentence_transformer := bool_decide (is_Some (encode m));
         llm_model := llm_model |}
  end.

Definition missing_attribute {A} : res A :=
  Raise (Exception "object has no attribute").

(** [RAGSystem._get_query_embedding] *)
Definition _get_query_embedding (self : t) (text : string) : pyval :=
  match embedding_model self with
  | None => PNone
  | Some m =>
      let attempt :=
        if is_sentence_transformer self then
          match encode m with Some f => f text | None => missing_attribute end
        else
          match embed_query m with
          | Some f => f text
          | None =>
              match embed_documents m with
              | Some f =>
                  match f [text] with
                  | Ret vs => py_first vs
                  | Raise e => Raise e
                  end
              | None => Ret PNone
              end
          end in
      match attempt with
      | Ret v => v
      | Raise _ => PNone
      end
  end.

(** [RAGSystem._rerank_documents] *)
Definition _rerank_documents (self : t) (question : string) (documents : pyval) : pyval :=
  match sort_by_stored_score rt documents with
  | Raise _ => documents
  | Ret (Some sorted) => sorted
  | Ret None =>
      match embedding_model self with
      | None => documents
      | Some _ =>
          let question_embedding := _get_query_embedding self question in
          if is_none question_embedding then documents
          else
            match sort_by_similarity rt question_embedding documents with
            | Ret sorted => sorted
            | Raise _ => documents
            end
      end
  end.

(** [RAGSystem._format_response]: the test
    [not response_text or not isinstance(response_text, str)] takes the
    truth value of its argument first, and then the method rewrites a
    [str] that is not empty. *)
Definition _format_response (response_text : pyval) : res pyval :=
  match py_truthy response_text with
  | Raise e => Raise e
  | Ret truth =>
      match response_text with
      | PStr s => if truth then Ret (PStr (format_text rt s)) else Ret response_text
      | _ => Ret response_text
      end
  end.

(** The block under [# Cleanup response if needed]. *)
Definition cleanup_response (response : pyval) : pyval :=
  match response with
  | PDict items =>
      match dict_get "text" items with
      | Some v => v
      | None =>
          match dict_get "generated_text" items with
          | Some v => v
          | None =>
              match dict_get "response" items with
              | Some v => v
              | None => PStr (py_str rt response)
              end
          end
      end
  | PList (first :: _) =>
      match first with
      | PDict items =>
          match dict_get "text" items with
          | Some v => v
          | None => PStr (py_str rt first)
          end
      | _ => PStr (py_str rt first)
      end
  | _ => response
  end.

Definition generation_error (e : exn) : pyval :=
  PStr ("I encountered an error while generating a response: " +:+ exn_str e).

(** [RAGSystem._generate_response] *)
Definition _generate_response (self : t) (question : string) (context : pyval) : pyval :=
  match llm_model self with
  | None => PStr "No language model available to generate a response."
  | Some llm =>
      match build_prompt rt context question with
      | Raise e => generation_error e
      | Ret prompt =>
          let finish (generated : res pyval) : pyval :=
            match generated with
            | Raise e => generation_error e
            | Ret response =>
                match _format_response (cleanup_response response) with
                | Ret formatted => formatted
                | Raise e => generation_error e
                end
            end in
          match generate llm with
          | Some f => finish (f [prompt])
          | None =>
              match predict llm with
              | Some f => finish (f prompt)
              | None =>
                  match call llm with
                  | Some f => finish (f prompt)
                  | None =>
                      PStr "Error: Language model doesn't support a recognized generation method."
                  end
              end
          end
      end
  end.

(** The inner [try] of [query] with its handler: the primary search and
    the [len()] taken for the log line, then the fallback. *)
Definition retrieve (self : t) (question : string) (query_embedding : pyval) (k : Z)
    : res pyval :=
  let primary :=
    match search (vector_store self) query_embedding k with
    | Ret docs =>
        match py_len docs with
        | Ret _ => Ret docs
        | Raise e => Raise e
        end
    | Raise e => Raise e
    end in
  match primary with
  | Ret docs => Ret docs
  | Raise _ =>
      match similarity_search (vector_store self) with
      | Some f => f question k
      | None =>
          Raise (Exception "Vector store doesn't support search or similarity_search methods")
      end
  end.

(** The outer [try] block of [query]: [Ret] is the value of a [return]. *)
Definition query_try (self : t) (question : string) (context : pyval) (k : Z)
    (rerank : bool) : res pyval :=
  match py_truthy context with
  | Raise e => Raise e
  | Ret true => Ret (_generate_response self question context)
  | Ret false =>
      let query_embedding := _get_query_embedding self question in
      if is_none query_embedding then
        Ret (PStr "Unable to generate embedding for your question. Please check embedding model configuration.")
      else
        match retrieve self question query_embedding k with
        | Raise e => Raise e
        | Ret relevant_docs =>
            if rerank then
              match py_len relevant_docs with
              | Raise e => Raise e
              | Ret n =>
                  let relevant_docs :=
                    if (1 <? n)%nat then _rerank_documents self question relevant_docs
                    else relevant_docs in
                  Ret (_generate_response self question relevant_docs)
              end
            else Ret (_generate_response self question relevant_docs)
        end
  end.

(** [RAGSystem.query], as a method that could raise. *)
Definition query (self : t) (question : string) (context : pyval) (k : Z)
    (rerank : bool) : res pyval :=
  match query_try self question context k rerank with
  | Ret response => Ret response
  | Raise e => Ret (PStr ("Sorry, I encountered an error: " +:+ exn_str e))
  end.

(** The provider values that neither [cleanup_response] nor
    [_format_response] turns into a [str]: everything but a [str], a dict
    and a non-empty list, and but the arrays on whose truth value
    [_format_response] raises or may raise, those of two or more
    components and the empty one. *)
Definition passes_through (response : pyval) : bool :=
  match response with
  | PStr _ | PDict _ | PList (_ :: _) => false
  | PArray [_] => true
  | PArray _ => false
  | _ => true
  end.

(** What the generation method found by the [hasattr] chain returns for
    a prompt; [None] when the model has none of the three methods. *)
Definition generation (llm : LanguageModel) (prompt : string) : option (res pyval) :=
  match generate llm with
  | Some f => Some (f [prompt])
  | None =>
      match predict llm with
      | Some f => Some (f prompt)
      | None =>
          match call llm with
          | Some f => Some (f prompt)
          | None => None
          end
      end
  end.

(** A language model whose generation method, when it returns, returns a
    [str]. *)
Definition text_provider (llm : LanguageModel) : Prop :=
  ∀ prompt response, generation llm prompt = Some (Ret response) →
                     is_str response = true.

(** An embedding model without any of the three methods. *)
Definition no_embedding_method (m : EmbeddingModel) : Prop :=
  encode m = None ∧ embed_query m = None ∧ embed_documents m = None.

End Rag.
End RAG.

(** ** utils/rag.py: [RAGSystem.summarize_document] *)
Module Summary.
Section Summarize.
Context `{Num : Numeric}.
Context (rt : RAG.Runtime).
Import RAG.

(** [self.llm_model] as [summarize_document] probes it: [invoke] comes
    before the three methods that [query] looks for.  [None] for the
    whole model is [llm_model = None], on which every [hasattr] fails. *)
Record SummaryModel := {
  invoke : option (string → res pyval);
  model : LanguageModel
}.

Definition summary_generation (llm : option SummaryModel) (prompt : string)
    : option (res pyval) :=
  match llm with
  | None => None
  | Some llm =>
      match invoke llm with
      | Some f => Some (f prompt)
      | None => generation (model llm) prompt
      end
  end.

Definition nl : string := String Chunker.newline EmptyString.

Definition quote : string := String (ascii_of_nat 34) EmptyString.

(** The f-string of the summarization prompt, with [full_text[:4000]]. *)
Definition summary_prompt (filename full_text : string) : string :=
  nl +:+ "Please provide a comprehensive summary of the following document titled "
  +:+ quote +:+ filename +:+ quote +:+ ":" +:+ nl +:+ nl
  +:+ "Document Content:" +:+ nl
  +:+ substring 0 4000 full_text +:+ "  " +:+ nl +:+ nl
  +:+ "Provide a clear, structured summary that includes:" +:+ nl
  +:+ "1. Main topics covered" +:+ nl
  +:+ "2. Key concepts and definitions" +:+ nl
  +:+ "3. Important points and conclusions" +:+ nl
  +:+ "4. Overall purpose or objective of the document" +:+ nl +:+ nl
  +:+ "Summary:" +:+ nl.

(** The fixed part of the fallback summary, after its first four lines.
    Its bullet characters are kept as their UTF-8 bytes. *)
Definition fallback_guidance : string :=
  nl +:+ "This document contains structured content that has been processed and stored in the system. "
  +:+ nl
  +:+ "To get a detailed AI-generated summary, please ensure your language model is properly configured."
  +:+ nl +:+ nl
  +:+ "Key Information:" +:+ nl
  +:+ "• Document has been successfully processed" +:+ nl
  +:+ "• Content is searchable through the query system" +:+ nl
  +:+ "• You can ask specific questions about the document content" +:+ nl +:+ nl
  +:+ "For detailed analysis, try asking specific questions about the document content.".

(** [RAGSystem._fallback_summary] on the dict of [get_document]. *)
Definition _fallback_summary (document : VectorStore.DocumentView) : string :=
  "Document Summary" +:+ nl +:+ nl
  +:+ "Filename: " +:+ VectorStore.view_filename document +:+ nl
  +:+ "Content Structure: "
  +:+ pretty (length (VectorStore.view_chunks document)) +:+ " text sections" +:+ nl
  +:+ fallback_guidance.

(** [RAGSystem.summarize_document]; [get_document] is the method of
    [self.vector_store]. *)
Definition summarize_document
    (get_document : string → res (option VectorStore.DocumentView))
    (llm : option SummaryModel) (doc_id : string) : pyval :=
  match get_document doc_id with
  | Raise e => PStr ("Error generating summary: " +:+ exn_str e)
  | Ret None => PStr "Document not found."
  | Ret (Some document) =>
      let full_text :=
        if Chunker.is_empty (VectorStore.view_text document) then
          if Chunker.is_nil (VectorStore.view_chunks document) then None
          else Some (str_join " " (VectorStore.view_chunks document))
        else Some (VectorStore.view_text document) in
      match full_text with
      | None => PStr "No content found in document."
      | Some full_text =>
          match summary_generation llm
                  (summary_prompt (VectorStore.view_filename document) full_text) with
          | None => PStr (_fallback_summary document)
          | Some (Raise _) => PStr (_fallback_summary document)
          | Some (Ret response) =>
              match _format_response rt (cleanup_response rt response) with
              | Ret formatted => formatted
              | Raise _ => PStr (_fallback_summary document)
              end
          end
      end
  end.

(** The summary of a document of a [VectorStore]. *)
Definition summarize (store : VectorStore.t) (llm : option SummaryModel)
    (doc_id : string) : pyval :=
  summarize_document (λ id, Ret (VectorStore.get_document store id)) llm doc_id.

End Summarize.
End Summary.

(** ** utils/rag.py: [PDFProcessor._chunk_text] *)
Module PDFProcessor.

(** [range(0, stop, step)] for [stop >= 0]. *)
Definition range_from_zero (stop step : Z) : res (list Z) :=
  if (step =? 0)%Z then Raise (Exception "range() arg 3 must not be zero")
  else if (step <? 0)%Z then Ret []
  else Ret ((λ j, (Z.of_nat j * step)%Z)
              <$> seq 0 (Z.to_nat ((stop + step - 1) / step))).

(** [s[start:stop]] for [start >= 0]: a negative [stop] counts from the
    end, and both bounds are clipped to the string. *)
Definition slice (s : string) (start stop : Z) : string :=
  let n := Z.of_nat (String.length s) in
  let lo := Z.min start n in
  let hi := if (stop <? 0)%Z then Z.max 0 (stop + n) else Z.min stop n in
  substring (Z.to_nat lo) (Z.to_nat (hi - lo)) s.

(** A langchain [Document] as [_chunk_text] builds it: the text and the
    five metadata entries. *)
Record Document := {
  page_content : string;
  md_source : string;
  md_page : Z;
  md_chunk : Z;
  md_id : string;
  md_document_id : string
}.

(** The body of the loop of [_chunk_text] for the offset [i]: [None] is
    [continue]. *)
Definition chunk_at (chunk_size : Z) (text : string) (page_num : Z)
    (doc_id pdf_path : string) (i : Z) : option Document :=
  let chunk_text := slice text i (i + chunk_size) in
  if Chunker.is_empty (Chunker.strip chunk_text) then None
  else
    Some {| page_content := chunk_text;
            md_source := pdf_path;
            md_page := page_num;
            md_chunk := (i / chunk_size)%Z;
            md_id := doc_id +:+ "_p" +:+ pretty page_num +:+ "_c"
                     +:+ pretty (i / chunk_size)%Z;
            md_document_id := doc_id |}.

(** [PDFProcessor._chunk_text], for the fields [chunk_size] and
    [chunk_overlap] of the object. *)
Definition _chunk_text (chunk_size chunk_overlap : Z) (text : string) (page_num : Z)
    (doc_id pdf_path : string) : res (list Document) :=
  match range_from_zero (Chunker.len text) (chunk_size - chunk_overlap) with
  | Raise e => Raise e
  | Ret offsets => Ret (omap (chunk_at chunk_size text page_num doc_id pdf_path) offsets)
  end.

End PDFProcessor.

(** ** utils/rag.py: [EmbeddingManager.generate_embeddings] *)
Module EmbeddingManager.
Section Manager.
Context `{Num : Numeric}.

(** The float [0.0] and the digest behind [_get_cache_key]. *)
Context (zero : scalar).
Context (md5_hexdigest : string → string).

(** The fields the method uses: the [embed_documents] method of
    [self.embedding_model] and the dict [self._cache].  [_save_cache]
    writes a file and swallows its own errors; it changes neither. *)
Record t := {
  embed_documents : list string → res (list (list scalar));
  _cache : gmap string (list scalar)
}.

(** The [texts] argument: one [str], or a list whose items are strings or
    [None]. *)
Inductive texts_arg :=
| OneText (text : string)
| TextList (texts : list (option string)).

Definition as_list (texts : texts_arg) : list (option string) :=
  match texts with
  | OneText text => [Some text]
  | TextList texts => texts
  end.

(** [str(text).strip() if text is not None else " "] *)
Definition clean (text : option string) : string :=
  match text with
  | Some s => Chunker.strip s
  | None => " "
  end.

(** [[0.0] * 384] *)
Definition zeros : list scalar := replicate 384 zero.

(** The variables of the loop that consults the cache. *)
Record scan_state := {
  embeddings : list (option (list scalar));
  uncached_texts : list string;
  uncached_indices : list nat
}.

Definition scan_step (cache : gmap string (list scalar)) (st : scan_state)
    (item : nat * string) : scan_state :=
  match cache !! md5_hexdigest item.2 with
  | Some cached =>
      {| embeddings := <[item.1 := Some cached]> (embeddings st);
         uncached_texts := uncached_texts st;
         uncached_indices := uncached_indices st |}
  | None =>
      {| embeddings := embeddings st;
         uncached_texts := uncached_texts st ++ [item.2];
         uncached_indices := uncached_indices st ++ [item.1] |}
  end.

(** The body of the loop over [zip(uncached_indices, batch_embeddings)]. *)
Definition store_step (use_cache : bool) (cleaned : list string)
    (st : list (option (list scalar)) * gmap string (list scalar))
    (item : nat * list scalar)
    : list (option (list scalar)) * gmap string (list scalar) :=
  (<[item.1 := Some item.2]> st.1,
   if use_cache then
     match cleaned !! item.1 with
     | Some text => <[md5_hexdigest text := item.2]> st.2
     | None => st.2
     end
   else st.2).

(** [EmbeddingManager.generate_embeddings]: the list returned and the
    object afterwards. *)
Definition generate_embeddings (self : t) (texts : texts_arg) (use_cache : bool)
    : list (list scalar) * t :=
  let texts := as_list texts in
  if Chunker.is_nil texts then ([], self)
  else
    let cleaned := clean <$> texts in
    let scanned :=
      if use_cache then
        foldl (scan_step (_cache self))
          {| embeddings := replicate (length cleaned) None;
             uncached_texts := []; uncached_indices := [] |}
          (zip (seq 0 (length cleaned)) cleaned)
      else
        {| embeddings := replicate (length cleaned) None;
           uncached_texts := cleaned;
           uncached_indices := seq 0 (length cleaned) |} in
    let filled :=
      if Chunker.is_nil (uncached_texts scanned) then (embeddings scanned, _cache self)
      else
        match embed_documents self (uncached_texts scanned) with
        | Ret batch_embeddings =>
            foldl (store_step use_cache cleaned) (embeddings scanned, _cache self)
              (zip (uncached_indices scanned) batch_embeddings)
        | Raise _ =>
            (foldl (λ filled idx, <[idx := Some zeros]> filled) (embeddings scanned)
               (uncached_indices scanned),
             _cache self)
        end in
    (default zeros <$> filled.1,
     {| embed_documents := embed_documents self; _cache := filled.2 |}).

End Manager.
End EmbeddingManager.

(** ** Concrete scenarios

    Small stores over exact integer vectors, used to run the definitions. *)
Module Scenario.
Import VectorStore.

Definition path : string := "./data/vector_store.pkl".

Definition empty_world : World :=
  {| store := fresh 2 path; disk := ∅; log := [] |}.

(** Document [A] with chunks [cats], [dogs] and embeddings [[1,0]], [[0,1]]. *)
Definition with_A : World :=
  snd (add_document WriteCompletes "A" ["cats"; "dogs"]
         (EmbVectors [[1; 0]; [0; 1]]%Z) None empty_world).

(** One-chunk documents [A] at [[1,0]] and [B] at [[0,1]]. *)
Definition with_A_B : World :=
  run [AddDocument WriteCompletes "A" ["cats"] (EmbVectors [[1; 0]]%Z) None;
       AddDocument WriteCompletes "B" ["dogs"] (EmbVectors [[0; 1]]%Z) None]
    empty_world.

(** The same store after [remove_document("A")]. *)
Definition with_B_only : World :=
  snd (remove_document WriteCompletes "A" with_A_B).

(** Stand-ins for the collaborators of the upload route: a digest, the
    identity for [secure_filename], an extraction that yields the message
    [extract_text_from_pdf] returns when it cannot open its argument, and
    an embedding of the whole text as one chunk. *)
Definition digest (file_content : list Byte.byte) : string :=
  "md5-" +:+ pretty (length file_content).

Definition extraction (file_content : list Byte.byte) : string :=
  "ERROR: An unexpected error occurred while processing the PDF.".

Definition embeddings_of (text : string) : res (list string * list (list Z)) :=
  Ret ([text], [[0; 0]%Z]).

Definition pdf_upload : Routes.Request :=
  {| Routes.file := Some ("notes.pdf", [Byte.x25; Byte.x50; Byte.x44; Byte.x46]) |}.

(** A RAG system over a store with an empty index, with a language model
    whose [generate] returns an empty list. *)
Definition runtime : RAG.Runtime :=
  {| RAG.py_str := λ _, "<object>";
     RAG.format_text := λ s, s;
     RAG.build_prompt := λ _ question, Ret ("USER QUESTION: " +:+ question);
     RAG.sort_by_stored_score := λ _, Ret None;
     RAG.sort_by_similarity := λ _ documents, Ret documents;
     RAG.float_truth := λ x, negb (x =? 0)%Z;
     RAG.scalar_truth := λ x, negb (x =? 0)%Z;
     RAG.empty_array_truth := Ret false |}.

Definition empty_retriever : RAG.Retriever :=
  {| RAG.search := λ _ _, Ret (RAG.PList []);
     RAG.similarity_search := Some (λ _ _, Ret (RAG.PList [])) |}.

Definition encoder : RAG.EmbeddingModel :=
  {| RAG.encode := Some (λ _, Ret (RAG.PArray [0; 0]%Z));
     RAG.embed_query := None; RAG.embed_documents := None |}.

Definition empty_list_model : RAG.LanguageModel :=
  {| RAG.generate := Some (λ _, Ret (RAG.PList []));
     RAG.predict := None; RAG.call := None |}.

Definition rag_system : RAG.t :=
  RAG.init None empty_retriever (Some encoder) (Some empty_list_model).

(** The store with [A] after [remove_document("A")]: an index of two
    vectors and no document. *)
Definition without_A : VectorStore.World :=
  snd (VectorStore.remove_document VectorStore.WriteCompletes "A" with_A).

(** A language model whose [__call__] returns a string. *)
Definition text_model : RAG.LanguageModel :=
  {| RAG.generate := None; RAG.predict := None;
     RAG.call := Some (λ _, Ret (RAG.PStr "An answer.")) |}.

(** An embedding model without methods, and a store whose [search]
    raises and that has no [similarity_search]. *)
Definition mute_model : RAG.EmbeddingModel :=
  {| RAG.encode := None; RAG.embed_query := None; RAG.embed_documents := None |}.

Definition failing_retriever : RAG.Retriever :=
  {| RAG.search := λ _ _, Raise (Exception "index is closed");
     RAG.similarity_search := None |}.

(** Document [G] with one chunk far out, at [[10^20, 0]]: its squared
    distance to [[-10^20, 0]] is [4 * 10^40], beyond the largest
    [float32]. *)
Definition with_far : VectorStore.World :=
  snd (VectorStore.add_document VectorStore.WriteCompletes "G" ["g0"]
         (VectorStore.EmbVectors [[10 ^ 20; 0]]%Z) None empty_world).

(** An embedding manager whose model always raises, with one cached
    text. *)
Definition key_of (text : string) : string := "key:" +:+ text.

Definition failing_manager : EmbeddingManager.t :=
  {| EmbeddingManager.embed_documents := λ _, Raise (Exception "model is down");
     EmbeddingManager._cache := {[ key_of "hello" := [1; 2]%Z ]} |}.

(** An embedding manager whose model returns one vector, whatever the
    batch. *)
Definition short_manager : EmbeddingManager.t :=
  {| EmbeddingManager.embed_documents := λ _, Ret [[7; 7]%Z];
     EmbeddingManager._cache := ∅ |}.

End Scenario.

(** * Properties of the chunker *)
Section ChunkerFacts.
Import Chunker.

Lemma append_snoc (cur : string) (c : ascii) (rest : string) :
  (cur +:+ String c EmptyString) +:+ rest = cur +:+ String c rest.
Proof.
  induction cur as [|a cur IH]; [reflexivity|].
  change (String a ((cur +:+ String c EmptyString) +:+ rest)
          = String a (cur +:+ String c rest)).
  f_equal. exact IH.
Qed.

Lemma append_empty_r (s : string) : s +:+ EmptyString = s.
Proof.
  induction s as [|a s IH]; [reflexivity|].
  change (String a (s +:+ EmptyString) = String a s). f_equal. exact IH.
Qed.

Lemma space_is_not_newline (c : ascii) :
  py_isspace c = false → Ascii.eqb c newline = false.
Proof.
  intros Hc. destruct (Ascii.eqb c newline) eqn:Hn; [|done].
  apply Ascii.eqb_eq in Hn as ->. discriminate Hc.
Qed.

(** *** Text without whitespace is one paragraph and one sentence *)

Lemma lstrip_no_space (s : string) : has_space s = false → lstrip s = s.
Proof.
  destruct s as [|c rest]; cbn; [done|].
  intros [Hc _]%orb_false_iff. by rewrite Hc.
Qed.

Lemma rstrip_no_space (s : string) : has_space s = false → rstrip s = s.
Proof.
  induction s as [|c rest IH]; cbn; [done|].
  intros [Hc Hrest]%orb_false_iff. rewrite (IH Hrest), Hc.
  by destruct rest.
Qed.

Lemma strip_no_space (s : string) : has_space s = false → strip s = s.
Proof.
  intros Hs. unfold strip. rewrite (lstrip_no_space s Hs). by apply rstrip_no_space.
Qed.

Lemma split_blank_lines_no_space (s cur : string) :
  has_space s = false → split_blank_lines s cur = [cur +:+ s].
Proof.
  revert cur. induction s as [|c rest IH]; intros cur; cbn.
  { intros _. by rewrite append_empty_r. }
  intros [Hc Hrest]%orb_false_iff.
  destruct rest as [|c' rest']; [done|].
  rewrite (space_is_not_newline c Hc). cbn [andb].
  rewrite (IH _ Hrest). by rewrite append_snoc.
Qed.

Lemma split_sentences_from_no_space (after_terminal : bool) (s cur : string) :
  has_space s = false →
  split_sentences_from (Outside after_terminal) s cur = [cur +:+ s].
Proof.
  revert after_terminal cur. induction s as [|c rest IH]; intros b cur; cbn.
  { intros _. by rewrite append_empty_r. }
  intros [Hc Hrest]%orb_false_iff. rewrite Hc, andb_false_r.
  rewrite (IH _ _ Hrest). by rewrite append_snoc.
Qed.

Lemma paragraphs_of_no_space (s : string) :
  has_space s = false → is_empty s = false → paragraphs_of s = [s].
Proof.
  intros Hs Hne. unfold paragraphs_of.
  rewrite (split_blank_lines_no_space s EmptyString Hs).
  change (EmptyString +:+ s) with s. cbn.
  rewrite (strip_no_space s Hs), Hne. done.
Qed.

(** *** The number of chunks *)

Lemma sentence_step_chunks (chunk_size : Z) (st : sentence_state) (sentence : string) :
  length (s_chunks (sentence_step chunk_size st sentence)) ≤ length (s_chunks st) + 1.
Proof.
  unfold sentence_step. case_match; cbn; [|lia].
  rewrite length_app. cbn. lia.
Qed.

Lemma sentence_loop_chunks (chunk_size : Z) (sentences : list string) (st : sentence_state) :
  length (s_chunks (foldl (sentence_step chunk_size) st sentences))
  ≤ length (s_chunks st) + length sentences.
Proof.
  revert st. induction sentences as [|s rest IH]; intros st; cbn [foldl length]; [lia|].
  etrans; [apply IH|]. pose proof (sentence_step_chunks chunk_size st s). lia.
Qed.

Lemma split_long_paragraph_chunks (chunk_size : Z) (chunks : list string) (p : string) :
  length (split_long_paragraph chunk_size chunks p)
  ≤ length chunks + length (split_sentences p) + 1.
Proof.
  unfold split_long_paragraph.
  pose proof (sentence_loop_chunks chunk_size (split_sentences p)
                {| s_chunks := chunks; sentence_chunk := [];
                   sentence_chunk_length := 0 |}) as Hloop.
  cbn [s_chunks] in Hloop.
  case_match; [lia|]. rewrite length_app. cbn. lia.
Qed.

Lemma paragraph_step_chunks (chunk_size : Z) (st : chunk_state) (p : string) :
  length (chunks (paragraph_step chunk_size st p))
  ≤ length (chunks st) + (2 + length (split_sentences p)).
Proof.
  unfold paragraph_step.
  set (chunks1 := if is_nil (current_chunk st) then chunks st
                  else chunks st ++ [str_join blank_line (current_chunk st)]).
  assert (Hc1 : length chunks1 ≤ length (chunks st) + 1).
  { unfold chunks1. case_match; [lia|]. rewrite length_app. cbn. lia. }
  repeat case_match; cbn [chunks]; try lia.
  pose proof (split_long_paragraph_chunks chunk_size chunks1 p). lia.
Qed.

Lemma paragraph_loop_chunks (chunk_size : Z) (ps : list string) (st : chunk_state) :
  length (chunks (foldl (paragraph_step chunk_size) st ps))
  ≤ length (chunks st) + foldr (λ p n, 2 + length (split_sentences p) + n) 0 ps.
Proof.
  revert st. induction ps as [|p rest IH]; intros st; cbn [foldl foldr]; [lia|].
  etrans; [apply IH|]. pose proof (paragraph_step_chunks chunk_size st p). lia.
Qed.

(** *** A paragraph without a sentence boundary *)

Lemma split_sentences_from_not_nil (m : scan) (s cur : string) :
  split_sentences_from m s cur ≠ [].
Proof.
  revert m cur. induction s as [|c rest IH]; intros m cur; cbn; [done|].
  destruct m as [|after_terminal]; repeat case_match; try done; apply IH.
Qed.

(** When [re.split] finds no boundary, its one piece is the paragraph. *)
Lemma split_sentences_from_one (after_terminal : bool) (s cur : string) :
  length (split_sentences_from (Outside after_terminal) s cur) = 1 →
  split_sentences_from (Outside after_terminal) s cur = [cur +:+ s].
Proof.
  revert after_terminal cur. induction s as [|c rest IH]; intros b cur; cbn.
  { intros _. by rewrite append_empty_r. }
  destruct (b && py_isspace c).
  - cbn. intros Hlen.
    pose proof (split_sentences_from_not_nil InSeparator rest EmptyString) as Hne.
    destruct (split_sentences_from InSeparator rest EmptyString); [done|].
    discriminate Hlen.
  - intros Hlen. rewrite (IH _ _ Hlen). by rewrite append_snoc.
Qed.

Lemma split_long_paragraph_one (chunk_size : Z) (chunks : list string) (p : string) :
  length (split_sentences p) = 1 →
  split_long_paragraph chunk_size chunks p = chunks ++ [p].
Proof.
  intros Hone. unfold split_long_paragraph, split_sentences in *.
  rewrite (split_sentences_from_one false p EmptyString Hone).
  change (EmptyString +:+ p) with p. cbn [foldl].
  unfold sentence_step. cbn [sentence_chunk is_nil negb]. rewrite andb_false_r.
  cbn. done.
Qed.

(** The chunks already closed stay, in their order. *)
Lemma sentence_loop_prefix (chunk_size : Z) (sentences : list string) (st : sentence_state) :
  s_chunks st `prefix_of` s_chunks (foldl (sentence_step chunk_size) st sentences).
Proof.
  revert st. induction sentences as [|s rest IH]; intros st; cbn [foldl]; [done|].
  etrans; [|apply IH]. unfold sentence_step. case_match; cbn; [|done].
  by apply prefix_app_r.
Qed.

Lemma paragraph_step_prefix (chunk_size : Z) (st : chunk_state) (p : string) :
  chunks st `prefix_of` chunks (paragraph_step chunk_size st p).
Proof.
  unfold paragraph_step.
  set (chunks1 := if is_nil (current_chunk st) then chunks st
                  else chunks st ++ [str_join blank_line (current_chunk st)]).
  assert (Hc1 : chunks st `prefix_of` chunks1).
  { unfold chunks1. case_match; [done|]. by apply prefix_app_r. }
  repeat case_match; cbn [chunks]; try done.
  etrans; [exact Hc1|]. unfold split_long_paragraph.
  pose proof (sentence_loop_prefix chunk_size (split_sentences p)
                {| s_chunks := chunks1; sentence_chunk := [];
                   sentence_chunk_length := 0 |}) as Hloop.
  cbn [s_chunks] in Hloop.
  case_match; [done|]. etrans; [exact Hloop|]. by apply prefix_app_r.
Qed.

Lemma paragraph_loop_prefix (chunk_size : Z) (ps : list string) (st : chunk_state) :
  chunks st `prefix_of` chunks (foldl (paragraph_step chunk_size) st ps).
Proof.
  revert st. induction ps as [|p rest IH]; intros st; cbn [foldl]; [done|].
  etrans; [apply (paragraph_step_prefix chunk_size st p)|apply IH].
Qed.

(** [current_length] is never negative. *)
Lemma paragraph_step_length (chunk_size : Z) (st : chunk_state) (p : string) :
  (0 <= current_length st)%Z →
  (0 <= current_length (paragraph_step chunk_size st p))%Z.
Proof.
  intros Hst. unfold paragraph_step, len.
  repeat case_match; cbn [current_length]; lia.
Qed.

Lemma paragraph_step_oversized (chunk_size : Z) (st : chunk_state) (p : string) :
  (0 <= current_length st)%Z → (chunk_size < len p)%Z →
  length (split_sentences p) = 1 →
  p ∈ chunks (paragraph_step chunk_size st p).
Proof.
  intros Hst Hlen Hone. unfold paragraph_step.
  assert (Hgt : (current_length st + len p >? chunk_size)%Z = true)
    by (apply Z.gtb_lt; lia).
  assert (Hgt' : (len p >? chunk_size)%Z = true) by (apply Z.gtb_lt; lia).
  rewrite Hgt, Hgt'. cbn [chunks].
  rewrite (split_long_paragraph_one _ _ _ Hone).
  apply elem_of_app. right. by apply list_elem_of_singleton.
Qed.

Lemma paragraph_loop_oversized (chunk_size : Z) (ps : list string) (st : chunk_state)
    (p : string) :
  (0 <= current_length st)%Z → p ∈ ps → (chunk_size < len p)%Z →
  length (split_sentences p) = 1 →
  p ∈ chunks (foldl (paragraph_step chunk_size) st ps).
Proof.
  intros Hst Hp Hlen Hone. revert st Hst.
  induction Hp as [p rest|p p' rest Hp IH]; intros st Hst; cbn [foldl].
  - destruct (paragraph_loop_prefix chunk_size rest (paragraph_step chunk_size st p))
      as [more ->].
    apply elem_of_app. left. by apply paragraph_step_oversized.
  - apply IH; [done|done|]. by apply paragraph_step_length.
Qed.

(** C3, as the code has it: [split_into_chunks] is a total function for
    every text, [chunk_size] and [overlap] -- its loops run once over the
    paragraphs and once over the sentences of each oversized paragraph --
    and it returns at most [chunk_bound] chunks.  There is no hard cut:
    every paragraph of the text that is longer than [chunk_size] and in
    which [re.split] finds no sentence boundary is one of the chunks,
    whole; and a text without whitespace that is longer than
    [chunk_size] comes back as that one chunk and nothing else. *)
Theorem split_into_chunks_total_without_cut :
  (∀ text chunk_size overlap,
     length (split_into_chunks text chunk_size overlap)
     ≤ chunk_bound (ensure_text_is_string text))
  ∧ (∀ text chunk_size overlap paragraph,
       paragraph ∈ paragraphs_of (ensure_text_is_string text) →
       (chunk_size < len paragraph)%Z →
       length (split_sentences paragraph) = 1 →
       paragraph ∈ split_into_chunks text chunk_size overlap)
  ∧ (∀ s chunk_size overlap,
       has_space s = false → (1 <= chunk_size)%Z → (chunk_size < len s)%Z →
       split_into_chunks (Str s) chunk_size overlap = [s]).
Proof.
  split_and!.
  - intros text chunk_size overlap. unfold split_into_chunks, chunk_bound.
    destruct (is_empty (ensure_text_is_string text)); [cbn; lia|].
    pose proof (paragraph_loop_chunks chunk_size
                  (paragraphs_of (ensure_text_is_string text))
                  {| chunks := []; current_chunk := []; current_length := 0 |}) as Hloop.
    set (bound := foldr _ 0 _) in *. set (st := foldl _ _ _) in *.
    change (length (chunks st) ≤ 0 + bound) in Hloop.
    case_match; [lia|]. rewrite length_app. cbn [length]. lia.
  - intros text chunk_size overlap p Hp Hlen Hone. unfold split_into_chunks.
    destruct (is_empty (ensure_text_is_string text)) eqn:Hempty.
    { destruct (ensure_text_is_string text); [|done]. by apply elem_of_nil in Hp. }
    pose proof (paragraph_loop_oversized chunk_size
                  (paragraphs_of (ensure_text_is_string text))
                  {| chunks := []; current_chunk := []; current_length := 0 |} p)
      as Hloop.
    cbn [current_length] in Hloop. specialize (Hloop ltac:(lia) Hp Hlen Hone).
    case_match; [done|]. apply elem_of_app. by left.
  - intros s chunk_size overlap Hs Hsize Hlen. unfold split_into_chunks.
    cbn [ensure_text_is_string].
    assert (Hne : is_empty s = false).
    { destruct s; [|done]. unfold len in Hlen. cbn in Hlen. lia. }
    rewrite Hne, (paragraphs_of_no_space s Hs Hne). cbn [foldl].
    unfold paragraph_step. cbn [current_length current_chunk chunks is_nil].
    assert (Hgt : (0 + len s >? chunk_size)%Z = true) by (apply Z.gtb_lt; lia).
    assert (Hgt' : (len s >? chunk_size)%Z = true) by (apply Z.gtb_lt; lia).
    rewrite Hgt, Hgt'. cbn [current_chunk chunks is_nil].
    unfold split_long_paragraph, split_sentences.
    rewrite (split_sentences_from_no_space false s EmptyString Hs).
    change (EmptyString +:+ s) with s. cbn [foldl].
    unfold sentence_step. cbn [sentence_chunk is_nil negb]. rewrite andb_false_r.
    cbn. done.
Qed.

End ChunkerFacts.

(** * Properties of the vector store *)
Section VectorStoreFacts.
Context `{Num : Numeric}.
Import VectorStore.

Lemma has_document_true (self : t) id :
  has_document self id = true ↔ is_Some (documents self !! id).
Proof. unfold has_document. apply bool_decide_eq_true. Qed.

Lemma has_document_false (self : t) id :
  has_document self id = false ↔ documents self !! id = None.
Proof.
  unfold has_document. rewrite bool_decide_eq_false.
  rewrite eq_None_not_Some. done.
Qed.

(** [save] touches neither the object nor any other file. *)
Lemma save_store io w : store (save io w) = store w.
Proof. destruct io; reflexivity. Qed.

Lemma save_disk_other io w p :
  p ≠ store_path (store w) → disk (save io w) !! p = disk w !! p.
Proof.
  intros Hp. destruct io; cbn; try done.
  - rewrite !lookup_insert_ne; done.
  - rewrite lookup_insert_ne; done.
Qed.

Lemma save_completes w :
  disk (save WriteCompletes w) !! store_path (store w)
  = Some (Pickled (Some (documents (store w))) (Some (doc_ids (store w)))
            (Some (Serialized (index (store w))))).
Proof. cbn. apply lookup_insert_eq. Qed.

(** C10: [remove_document] of an identifier that is not in the document
    map returns [False] and leaves the document map, the id-lookup
    sequence, the index and every file as they were: [save] is not
    called. *)
Theorem remove_document_missing io id (w : World) :
  has_document (store w) id = false →
  fst (remove_document io id w) = false
  ∧ store (snd (remove_document io id w)) = store w
  ∧ disk (snd (remove_document io id w)) = disk w.
Proof.
  intros Hid. unfold remove_document. rewrite Hid. cbn. done.
Qed.

(** *** Search *)

Lemma resolve_hit_live (self : t) hit r :
  resolve_hit self hit = Some r → live self r ∧ score_of r = fst hit.
Proof.
  destruct hit as [dist idx]. unfold resolve_hit.
  case_match; [done|].
  destruct (doc_ids self !! Z.to_nat idx) as [id|] eqn:Hid; [|done]. cbn.
  destruct (documents self !! id) as [info|] eqn:Hinfo; [|done]. cbn.
  case_match eqn:Hrange; [done|].
  destruct (chunks info !! _) as [c|] eqn:Hc; [|done]. cbn.
  intros [= <-]. cbn. split; [|done].
  apply orb_false_iff in Hrange as [Hlo _]. apply Z.ltb_ge in Hlo.
  exists (Z.to_nat idx), info. cbn. split_and!; try done.
  - lia.
  - replace (Z.to_nat idx - chunk_start_idx info)
      with (Z.to_nat (idx - Z.of_nat (chunk_start_idx info))) by lia.
    done.
Qed.

Lemma index_search_fetched (self : t) q k hits :
  index_search (index self) q (Z.min k (Z.of_nat (ntotal (index self)))) = Ret hits →
  hits = fetched self q k.
Proof.
  unfold index_search. repeat case_match; try done. by intros [= <-].
Qed.

(** A search fills or pads exactly the slots it was asked for, and a
    slot that was not filled resolves to nothing. *)
Lemma length_nearest (ix : IndexFlatL2) q k : length (nearest ix q k) = k.
Proof. unfold nearest. rewrite length_app, length_replicate, length_take. lia. Qed.

Lemma resolve_nearest (self : t) q k :
  omap (resolve_hit self) (nearest (index self) q k)
  = omap (resolve_hit self) (take k (sort_hits (reported (index self) q))).
Proof.
  unfold nearest. rewrite omap_app.
  set (n := k - length _). clearbody n.
  induction n as [|n IH]; cbn; [by rewrite app_nil_r|]. exact IH.
Qed.

Lemma search_from_fetched (self : t) q k th rs :
  search self q k th = Ret rs →
  Forall (λ r, ∃ hit, hit ∈ fetched self q k ∧ resolve_hit self hit = Some r) rs
  ∧ (th = None → ntotal (index self) ≠ 0 → rs = omap (resolve_hit self) (fetched self q k)).
Proof.
  unfold search. destruct (Nat.eqb _ 0) eqn:Hn.
  { intros [= <-]. split; [constructor|]. intros _ Hne.
    apply Nat.eqb_eq in Hn. done. }
  destruct (index_search _ _ _) as [hits|e] eqn:Hhits; [|done].
  apply index_search_fetched in Hhits as ->.
  intros [= <-]. split.
  - apply Forall_forall. intros r Hr. destruct th as [t'|].
    + apply list_elem_of_filter in Hr as [_ Hr].
      by apply list_elem_of_omap in Hr.
    + by apply list_elem_of_omap in Hr.
  - by intros -> _.
Qed.

Lemma length_omap_le {A B} (f : A → option B) (l : list A) :
  length (omap f l) ≤ length l.
Proof. induction l as [|a l IH]; cbn; [done|]. destruct (f a); cbn; lia. Qed.

(** A document that is not added stays out of the document map. *)
Lemma step_keeps_absent (w : World) (c : call) id :
  does_not_add id c →
  documents (store w) !! id = None →
  documents (store (step w c)) !! id = None.
Proof.
  intros Hc Hid. destruct c as [io id' cs es md|io id']; cbn.
  - unfold add_document. cbn in Hc.
    destruct (index_add _ es); cbn; rewrite ?save_store; cbn;
      rewrite lookup_insert_ne; done.
  - unfold remove_document. destruct (has_document (store w) id'); cbn.
    + rewrite save_store. cbn. rewrite lookup_delete_None. by right.
    + done.
Qed.

Lemma run_keeps_absent (cs : list call) (w : World) id :
  Forall (does_not_add id) cs →
  documents (store w) !! id = None →
  documents (store (run cs w)) !! id = None.
Proof.
  intros Hcs. revert w. unfold run.
  induction Hcs as [|c cs Hc _ IH]; intros w Hw; cbn; [done|].
  apply IH. by apply step_keeps_absent.
Qed.

(** The index only grows. *)
Lemma step_index_prefix (w : World) (c : call) :
  xb (index (store w)) `prefix_of` xb (index (store (step w c))).
Proof.
  destruct c as [io id cs es md|io id]; cbn.
  - unfold add_document. cbn.
    destruct (index_add (index (store w)) es) as [ix|e] eqn:Hadd; cbn.
    + rewrite save_store. cbn.
      unfold index_add in Hadd. repeat case_match; try done.
      injection Hadd as <-. cbn. by apply prefix_app_r.
    + done.
  - unfold remove_document. destruct (has_document (store w) id); cbn.
    + rewrite save_store. done.
    + done.
Qed.

Lemma run_index_prefix (cs : list call) (w : World) :
  xb (index (store w)) `prefix_of` xb (index (store (run cs w))).
Proof.
  revert w. unfold run. induction cs as [|c cs IH]; intros w; cbn; [done|].
  etrans; [apply (step_index_prefix w c)|apply IH].
Qed.

(** C1: every result of [search] names a document that is in the document
    map, with a chunk index in range for it: raw hits that fail either
    test are dropped.  After a successful [remove_document(d)], and after
    any further calls that do not add [d] again, no [search] returns a
    result for [d], although the vectors indexed before the removal are
    all still in the index. *)
Theorem search_is_document_store_consistent :
  (∀ (self : t) q k th rs,
     search self q k th = Ret rs → Forall (live self) rs)
  ∧ (∀ (w : World) io d cs q k th rs,
       has_document (store w) d = true →
       Forall (does_not_add d) cs →
       search (store (run cs (snd (remove_document io d w)))) q k th = Ret rs →
       fst (remove_document io d w) = true
       ∧ xb (index (store w))
           `prefix_of` xb (index (store (run cs (snd (remove_document io d w)))))
       ∧ Forall (λ r, doc_id r ≠ d) rs).
Proof.
  assert (Hlive : ∀ (self : t) q k th rs,
            search self q k th = Ret rs → Forall (live self) rs).
  { intros self q k th rs Hs. apply search_from_fetched in Hs as [Hs _].
    eapply Forall_impl; [exact Hs|]. cbn. intros r (hit & _ & Hr).
    by apply resolve_hit_live in Hr as [Hr _]. }
  split; [exact Hlive|].
  intros w io d cs q k th rs Hd Hcs Hs.
  assert (Hrm : remove_document io d w
                = (true, emit (LogInfo ("Document " +:+ d +:+ " removed from vector store"))
                           (save io (set_store
                              (set_documents (delete d (documents (store w))) (store w)) w)))).
  { unfold remove_document. rewrite Hd. done. }
  split_and!.
  - rewrite Hrm. done.
  - etrans; [|apply run_index_prefix]. rewrite Hrm. cbn. rewrite save_store. done.
  - assert (Habs : documents (store (run cs (snd (remove_document io d w)))) !! d = None).
    { apply run_keeps_absent; [done|]. rewrite Hrm. cbn. rewrite save_store. cbn.
      apply lookup_delete_eq. }
    apply Hlive in Hs. eapply Forall_impl; [exact Hs|]. cbn.
    intros r (idx & info & _ & Hinfo & _) Hd'. rewrite Hd' in Hinfo. congruence.
Qed.

(** C9, as the code has it: [search] asks the index for exactly
    [min(top_k, ntotal)] candidates and never for more; its results are
    those of these candidates that resolve to a live chunk (and pass the
    threshold), so there are at most [min(top_k, ntotal)] of them. *)
Theorem search_returns_at_most_top_k (self : t) q k th rs :
  search self q k th = Ret rs →
  length (fetched self q k) ≤ Z.to_nat (Z.min k (Z.of_nat (ntotal (index self))))
  ∧ length rs ≤ length (fetched self q k)
  ∧ Forall (λ r, ∃ hit, hit ∈ fetched self q k ∧ resolve_hit self hit = Some r) rs
  ∧ (th = None → ntotal (index self) ≠ 0 →
     rs = omap (resolve_hit self) (fetched self q k)).
Proof.
  intros Hs. split_and!.
  - unfold fetched. rewrite length_nearest. lia.
  - revert Hs. unfold search. destruct (Nat.eqb _ 0).
    { intros [= <-]. cbn. lia. }
    destruct (index_search _ _ _) as [hits|e] eqn:Hhits; [|done].
    apply index_search_fetched in Hhits as ->.
    intros [= <-]. destruct th as [t'|].
    + etrans; [apply length_filter|]. apply length_omap_le.
    + apply length_omap_le.
  - by apply search_from_fetched in Hs as [Hs _].
  - by apply search_from_fetched in Hs as [_ Hs].
Qed.

(** *** Saving *)

(** C7, as the code has it: a mutating call that returns --
    [add_document], and [remove_document] of a document that exists --
    calls [save()] before it returns, and [save()] rewrites the store file
    in place.  When the write completes the file holds the full store as
    it is in memory after the call; when the file cannot be opened it is
    left as it was; a failure of the write is logged and the call returns
    with the same object in memory. *)
Theorem mutating_call_saves_in_place (w : World) (c : call) :
  mutates w c →
  (io_of c = WriteCompletes → persisted (step w c))
  ∧ (io_of c = OpenFails → disk (step w c) = disk w)
  ∧ (io_of c ≠ WriteCompletes →
     ∃ msg, LogError ("Failed to save vector store: " +:+ msg) ∈ log (step w c))
  ∧ store (step w c) = store (step w (with_io WriteCompletes c)).
Proof.
  destruct c as [io id cs es md|io id]; cbn [mutates io_of step with_io].
  - unfold add_document.
    destruct (index_add _ es) as [ix|e]; [|done]. intros _.
    cbn [snd]. unfold persisted.
    split_and!.
    + intros ->. cbn. rewrite lookup_insert_eq. done.
    + intros ->. done.
    + intros Hio. destruct io; [done| |]; eexists; cbn;
        rewrite !elem_of_app, !list_elem_of_singleton; eauto.
    + cbn. rewrite !save_store. done.
  - intros Hid. unfold remove_document. rewrite Hid. cbn [negb snd].
    unfold persisted. split_and!.
    + intros ->. cbn. rewrite lookup_insert_eq. done.
    + intros ->. done.
    + intros Hio. destruct io; [done| |]; eexists; cbn;
        rewrite !elem_of_app, !list_elem_of_singleton; eauto.
    + cbn. rewrite !save_store. done.
Qed.

(** The invariant of the persisted unit: one id-lookup entry per indexed
    vector. *)
Lemma index_add_ntotal ix vs ix' :
  index_add ix (EmbVectors vs) = Ret ix' → ntotal ix' = ntotal ix + length vs.
Proof.
  unfold index_add. destruct vs as [|v vs]; [done|].
  repeat case_match; try done. intros [= <-]. unfold ntotal. cbn.
  rewrite length_app. done.
Qed.

Lemma index_add_dict ix cs vs : index_add ix (EmbDict cs vs) = Raise
  (Exception "float() argument must be a string or a real number, not 'dict'").
Proof. reflexivity. Qed.

Lemma step_keeps_lengths (w : World) (c : call) :
  precondition c →
  length (doc_ids (store w)) = ntotal (index (store w)) →
  length (doc_ids (store (step w c))) = ntotal (index (store (step w c))).
Proof.
  intros Hpre Hinv. destruct c as [io id cs es md|io id]; cbn.
  - unfold add_document. cbn.
    destruct (index_add (index (store w)) es) as [ix|e] eqn:Hadd; cbn.
    + rewrite save_store. cbn. destruct es as [vs|cs' vs]; [|done].
      apply index_add_ntotal in Hadd. cbn in Hpre.
      rewrite length_app, length_replicate. lia.
    + done.
  - unfold remove_document. destruct (has_document (store w) id); cbn.
    + rewrite save_store. done.
    + done.
Qed.

(** C4: starting from an empty store, after any sequence of
    [add_document] and [remove_document] calls in which every
    [add_document] satisfies [len(chunks) == len(embeddings)], the length
    of [doc_ids] equals [index.ntotal].  Calls that raise are part of the
    sequence, and the document ids need not be fresh. *)
Theorem doc_ids_length_is_ntotal (dimension : nat) (store_path : string)
    (dk : gmap string store_file) (lg : list log_record) (cs : list call) :
  Forall precondition cs →
  let w := run cs {| store := fresh dimension store_path; disk := dk; log := lg |} in
  length (doc_ids (store w)) = ntotal (index (store w)).
Proof.
  intros Hpre. cbn zeta.
  set (w0 := {| store := fresh dimension store_path; disk := dk; log := lg |}).
  assert (Hstart : length (doc_ids (store w0)) = ntotal (index (store w0)))
    by reflexivity.
  clearbody w0. revert w0 Hstart.
  unfold run. induction Hpre as [|c cs Hc _ IH]; intros w Hw; cbn.
  - done.
  - apply IH. apply step_keeps_lengths; done.
Qed.

(** *** Persistence *)

Lemma search_same_fields (self self' : t) q k th :
  index self' = index self → documents self' = documents self →
  doc_ids self' = doc_ids self →
  search self' q k th = search self q k th.
Proof.
  intros Hi Hd Hl. unfold search, resolve_hit. rewrite Hi, Hd, Hl. done.
Qed.

(** C6: [save()], when the write goes through, followed by [load()] in a
    newly constructed [VectorStore] on the same path gives the same
    document records, the same [doc_ids], the same index, and so the same
    [search] results for every query.  The dimension passed to the new
    object does not matter: [load] replaces its index. *)
Theorem save_load_roundtrip (w : World) (dimension : nat) (lg : list log_record)
    (q : list scalar) (k : Z) (th : option score) :
  let reloaded :=
    init dimension (store_path (store w)) (disk (save WriteCompletes w)) lg in
  fst reloaded = Ret ()
  ∧ documents (store (snd reloaded)) = documents (store w)
  ∧ doc_ids (store (snd reloaded)) = doc_ids (store w)
  ∧ index (store (snd reloaded)) = index (store w)
  ∧ search (store (snd reloaded)) q k th = search (store w) q k th.
Proof.
  cbn zeta. unfold init, load. cbn [store disk fresh VectorStore.store_path].
  rewrite save_completes. cbn.
  repeat split; try done.
Qed.

(** The constructor fails exactly when its directory step does. *)
Lemma __init___outcome dirs mk dimension p (dk : gmap string store_file) lg :
  fst (__init__ dirs mk dimension p dk lg)
  = fst (_ensure_directory_exists dirs mk
           {| store := fresh dimension p; disk := dk; log := lg |}).
Proof.
  unfold __init__.
  destruct (_ensure_directory_exists _ _ _) as [[[]|e] w]; [|done].
  cbn [fst]. unfold load. destruct (disk w !! store_path (store w)) as [f|]; [|done].
  by destruct (load_try f (store w)) as [[u'|e] self'].
Qed.

Lemma _ensure_directory_exists_store dirs mk (w : World) :
  store (snd (_ensure_directory_exists dirs mk w)) = store w
  ∧ disk (snd (_ensure_directory_exists dirs mk w)) = disk w.
Proof.
  unfold _ensure_directory_exists. destruct (path_exists _ _ _); [done|].
  by destruct (makedirs _ _).
Qed.

(** C8: [load] never raises and never writes.  With no store file it
    leaves the object as it is -- at startup, the empty store under
    construction -- and logs one information record.  With a store
    file whose deserialization fails, the document map and [doc_ids] end
    up empty and the failure shows only as one error record in the log.
    At startup [load] adds no failure: the constructor raises exactly
    when its directory step, which runs before [load], raises, and when
    that step returns and there is no store file, the constructed store
    is the empty one. *)
Theorem load_never_raises :
  (∀ w : World, fst (load w) = Ret () ∧ disk (snd (load w)) = disk w)
  ∧ (∀ w : World,
       disk w !! store_path (store w) = None →
       store (snd (load w)) = store w
       ∧ log (snd (load w))
         = log w ++ [LogInfo "No vector store found, starting with empty store"])
  ∧ (∀ (w : World) f,
       disk w !! store_path (store w) = Some f →
       is_ret (fst (load_try f (store w))) = false →
       documents (store (snd (load w))) = ∅
       ∧ doc_ids (store (snd (load w))) = []
       ∧ ∃ msg, log (snd (load w)) = log w ++ [LogError msg])
  ∧ (∀ dirs mk dimension p (dk : gmap string store_file) lg,
       let start := {| store := fresh dimension p; disk := dk; log := lg |} in
       fst (__init__ dirs mk dimension p dk lg)
       = fst (_ensure_directory_exists dirs mk start)
       ∧ (dk !! p = None →
          is_ret (fst (_ensure_directory_exists dirs mk start)) = true →
          fst (__init__ dirs mk dimension p dk lg) = Ret ()
          ∧ store (snd (__init__ dirs mk dimension p dk lg)) = fresh dimension p)).
Proof.
  split_and!.
  - intros w. unfold load. destruct (disk w !! store_path (store w)) as [f|]; [|done].
    destruct (load_try f (store w)) as [[u|e] self']; done.
  - intros w Hf. unfold load. by rewrite Hf.
  - intros w f Hf. unfold load. rewrite Hf.
    destruct (load_try f (store w)) as [[u|e] self']; [done|].
    intros _. cbn. split_and!; eauto.
  - intros dirs mk dimension p dk lg. cbn zeta. split; [apply __init___outcome|].
    intros Hp Hdir. unfold __init__.
    pose proof (_ensure_directory_exists_store dirs mk
                  {| store := fresh dimension p; disk := dk; log := lg |}) as [Hs Hd].
    destruct (_ensure_directory_exists _ _ _) as [[u|e] w]; [|done].
    cbn [snd store disk] in Hs, Hd. unfold load. rewrite Hs, Hd.
    cbn [store_path fresh]. rewrite Hp. cbn. by rewrite Hs.
Qed.

End VectorStoreFacts.

(** * Properties of the upload route *)
Section UploadFacts.
Context `{Num : Numeric}.
Context (md5_hexdigest : list Byte.byte → string).
Context (secure_filename : string → string).
Context (extract_text_from_pdf : list Byte.byte → string).
Context (generate_embeddings : string → res (list string * list (list scalar))).
Import VectorStore Routes.

Abbreviation upload := (upload_file md5_hexdigest secure_filename
                          extract_text_from_pdf generate_embeddings).

(** An upload whose hash is in the document map is answered at once. *)
Lemma upload_known_content io now name file_content (w : World) :
  Chunker.is_empty name = false → allowed_file name = true →
  has_document (store w) (md5_hexdigest file_content) = true →
  upload io now {| file := Some (name, file_content) |} w
  = (AlreadyProcessed (md5_hexdigest file_content) (secure_filename name), w, []).
Proof.
  intros Hname Hallowed Hknown. unfold upload_file, get_file_hash. cbn [file].
  rewrite Hname, Hallowed, Hknown. done.
Qed.

(** An upload whose hash is not in the document map never gets a
    document id back: [add_document] is given the dict of
    [generate_embeddings] and raises. *)
Lemma upload_new_content_fails io now request (w : World) :
  (∀ name file_content, file request = Some (name, file_content) →
     has_document (store w) (md5_hexdigest file_content) = false) →
  response_document_id (upload io now request w).1.1 = None.
Proof.
  intros Hnew. unfold upload_file.
  destruct (file request) as [[name file_content]|] eqn:Hfile; [|done].
  unfold get_file_hash. rewrite (Hnew _ _ eq_refl).
  repeat case_match; done.
Qed.

(** C5, what the code does: the first upload of new content is answered
    with status 500 and no document id, after [add_document] has entered
    the document in the map and raised on the embeddings; nothing is
    indexed or saved.  The second upload of the same bytes is then
    answered [File already processed] with the content hash as document
    id, and does no extraction, embedding or insertion. *)
Theorem first_upload_fails_second_is_known io io' now now' name file_content cs vs
    (w : World) :
  Chunker.is_empty name = false → allowed_file name = true →
  has_document (store w) (md5_hexdigest file_content) = false →
  Chunker.is_empty (extract_text_from_pdf file_content) = false →
  generate_embeddings (extract_text_from_pdf file_content) = Ret (cs, vs) →
  let request := {| file := Some (name, file_content) |} in
  let first := upload io now request w in
  let second := upload io' now' request first.1.2 in
  first.1.1 = Error 500 "Failed to process file"
  ∧ index (store first.1.2) = index (store w)
  ∧ doc_ids (store first.1.2) = doc_ids (store w)
  ∧ disk first.1.2 = disk w
  ∧ has_document (store first.1.2) (md5_hexdigest file_content) = true
  ∧ second = (AlreadyProcessed (md5_hexdigest file_content) (secure_filename name),
              first.1.2, []).
Proof.
  intros Hname Hallowed Hnew Htext Hemb request first second.
  assert (Hfirst : first
    = (Error 500 "Failed to process file",
       emit (LogError ("Error processing upload: "
               +:+ "float() argument must be a string or a real number, not 'dict'"))
         (set_store
            (set_documents
               (<[md5_hexdigest file_content :=
                    {| chunks := characters (extract_text_from_pdf file_content);
                       chunk_start_idx := length (doc_ids (store w));
                       filename := secure_filename name;
                       upload_time := Some now;
                       text := str_join " "
                                 (characters (extract_text_from_pdf file_content)) |}]>
                  (documents (store w))) (store w)) w),
       [TextExtraction; EmbeddingComputation; IndexInsertion])).
  { unfold first, request, upload_file, get_file_hash. cbn [file].
    rewrite Hname, Hallowed, Hnew, Htext, Hemb. reflexivity. }
  assert (Hknown : has_document (store first.1.2) (md5_hexdigest file_content) = true).
  { rewrite Hfirst. cbn. apply has_document_true. cbn.
    rewrite lookup_insert_eq. eauto. }
  split_and!; try (rewrite Hfirst; reflexivity); [exact Hknown|].
  unfold second, request. by apply upload_known_content.
Qed.

End UploadFacts.

(** * Properties of the RAG query *)
Section QueryFacts.
Context `{Num : Numeric}.
Context (rt : RAG.Runtime).
Import RAG.

(** No exception leaves [query]. *)
Lemma query_never_raises (self : t) question context k rerank :
  ∃ response, query rt self question context k rerank = Ret response.
Proof. unfold query. destruct (query_try _ _ _ _ _ _); eauto. Qed.

Lemma _format_response_passes_through response :
  passes_through response = true →
  _format_response rt (cleanup_response rt response) = Ret response.
Proof. destruct response as [| | | |[|x [|y v]]| |[|]|]; done. Qed.

(** C2, what the code does: when the index yields no documents and the
    [generate] method of the language model returns a value that is not a
    [str], a dict or a non-empty list -- an empty list, [None], a result
    object -- [query] returns that value to its caller unchanged: not a
    string. *)
Theorem query_returns_provider_value (self : t) question k rerank llm generate_fn
    prompt response :
  is_none (_get_query_embedding self question) = false →
  search (vector_store self) (_get_query_embedding self question) k = Ret (PList []) →
  llm_model self = Some llm →
  generate llm = Some generate_fn →
  build_prompt rt (PList []) question = Ret prompt →
  generate_fn [prompt] = Ret response →
  passes_through response = true →
  query rt self question PNone k rerank = Ret response ∧ is_str response = false.
Proof.
  intros Hemb Hsearch Hllm Hgen Hprompt Hresp Hpass.
  assert (Hanswer : _generate_response rt self question (PList []) = response).
  { unfold _generate_response. rewrite Hllm, Hprompt, Hgen, Hresp.
    by rewrite (_format_response_passes_through _ Hpass). }
  split.
  - unfold query, query_try. cbn [py_truthy]. rewrite Hemb.
    unfold retrieve. rewrite Hsearch. cbn [py_len length Nat.ltb Nat.leb].
    destruct rerank; by rewrite Hanswer.
  - by destruct response as [| | | |[|x [|y v]]| |[|]|].
Qed.

End QueryFacts.

(** * Further properties of the vector store *)
Section VectorStoreMoreFacts.
Context `{Num : Numeric}.
Import VectorStore.

(** *** What [search] returns *)

(** X1: with an empty index [search] returns the empty list for every
    query, [top_k] and threshold, and with an empty document map every
    [search] that returns, returns the empty list, whatever is in the
    index. *)
Theorem search_nothing_to_find (self : t) q k th :
  (ntotal (index self) = 0 → search self q k th = Ret [])
  ∧ (documents self = ∅ → ∀ rs, search self q k th = Ret rs → rs = []).
Proof.
  split.
  - intros Hn. unfold search. by rewrite Hn.
  - intros Hdocs rs Hs. apply search_from_fetched in Hs as [Hs _].
    destruct rs as [|r rs]; [done|]. apply Forall_cons in Hs as [(hit & _ & Hr) _].
    apply resolve_hit_live in Hr as [(idx & info & _ & Hinfo & _) _].
    rewrite Hdocs, lookup_empty in Hinfo. done.
Qed.

Lemma search_threshold_filter (self : t) q k th rs0 :
  search self q k None = Ret rs0 →
  search self q k (Some th)
  = Ret (filter (λ r, score_leb (score_of r) th = true) rs0).
Proof.
  unfold search. destruct (Nat.eqb _ 0); [by intros [= <-]|].
  destruct (index_search _ _ _); [|done]. by intros [= <-].
Qed.

(** X2: a threshold only filters: [search] with a threshold returns the
    results of the same [search] without one that have a distance of at
    most the threshold, in the same order; it raises when the other
    raises. *)
Theorem search_with_threshold (self : t) q k th :
  match search self q k None with
  | Ret rs0 =>
      search self q k (Some th)
      = Ret (filter (λ r, score_leb (score_of r) th = true) rs0)
      ∧ ∀ rs, search self q k (Some th) = Ret rs →
              Forall (λ r, score_leb (score_of r) th = true) rs ∧ rs `sublist_of` rs0
  | Raise e => search self q k (Some th) = Raise e
  end.
Proof.
  destruct (search self q k None) as [rs0|e] eqn:Hs.
  - rewrite (search_threshold_filter _ _ _ _ _ Hs). split; [done|].
    intros rs [= <-]. split.
    + apply Forall_forall. by intros r [Hr _]%list_elem_of_filter.
    + apply sublist_filter.
  - revert Hs. unfold search. destruct (Nat.eqb _ 0); [done|].
    by destruct (index_search _ _ _).
Qed.

(** Sorting keeps every hit. *)
Lemma insert_hit_perm h hs : insert_hit h hs ≡ₚ h :: hs.
Proof.
  induction hs as [|h' hs IH]; cbn; [done|].
  case_match; [done|]. rewrite IH. apply Permutation_swap.
Qed.

Lemma sort_hits_perm hs : sort_hits hs ≡ₚ hs.
Proof.
  induction hs as [|h hs IH]; cbn; [done|].
  rewrite insert_hit_perm. by rewrite IH.
Qed.

Lemma length_all_hits ix q : length (all_hits ix q) = ntotal ix.
Proof. unfold all_hits, ntotal. by rewrite length_imap. Qed.

(** Resolving commutes with leaving out the distances out of range. *)
Lemma resolve_reported (self : t) q :
  omap (resolve_hit self) (reported (index self) q)
  = filter (λ r, in_range (score_of r) = true) (live_hits self q).
Proof.
  unfold reported, live_hits.
  induction (all_hits (index self) q) as [|hit hits IH]; [done|].
  rewrite filter_cons. cbn [omap list_omap].
  destruct (resolve_hit self hit) as [r|] eqn:Hr.
  - apply resolve_hit_live in Hr as Hscore. destruct Hscore as [_ Hscore].
    rewrite filter_cons, Hscore.
    case_decide; cbn [omap list_omap]; rewrite ?Hr; by rewrite IH.
  - case_decide; cbn [omap list_omap]; rewrite ?Hr; exact IH.
Qed.

(** With [top_k] at least [ntotal], every live entry at a distance in
    range is returned. *)
Lemma search_returns_live_hits (self : t) q k :
  length q = d (index self) →
  (Z.of_nat (ntotal (index self)) <= k)%Z →
  ∃ rs, search self q k None = Ret rs
    ∧ rs ≡ₚ filter (λ r, in_range (score_of r) = true) (live_hits self q).
Proof.
  intros Hq Hk. unfold search.
  destruct (Nat.eqb _ 0) eqn:Hn.
  { apply Nat.eqb_eq in Hn. exists []. split; [done|]. unfold live_hits.
    pose proof (length_all_hits (index self) q) as Hlen. rewrite Hn in Hlen.
    destruct (all_hits (index self) q); [done|discriminate Hlen]. }
  apply Nat.eqb_neq in Hn. unfold index_search.
  rewrite Hq, Nat.eqb_refl. cbn [negb].
  rewrite Z.min_r by lia.
  destruct (Z.leb_spec (Z.of_nat (ntotal (index self))) 0) as [Hle|_]; [lia|].
  eexists. split; [done|]. rewrite Nat2Z.id, resolve_nearest.
  rewrite take_ge.
  - by rewrite sort_hits_perm, resolve_reported.
  - rewrite sort_hits_perm. unfold reported.
    etrans; [apply length_filter|]. by rewrite length_all_hits.
Qed.

(** X3: when [top_k] is at least the number of indexed vectors and the
    query has the dimension of the index, [search] without a threshold
    returns, and its results are all the index entries that resolve to a
    chunk of a live document at a distance in range, each once.  An
    entry whose distance to the query overflowed is not among them. *)
Theorem search_all_live (self : t) q k :
  length q = d (index self) →
  (Z.of_nat (ntotal (index self)) <= k)%Z →
  ∃ rs, search self q k None = Ret rs
    ∧ rs ≡ₚ filter (λ r, in_range (score_of r) = true) (live_hits self q).
Proof. apply search_returns_live_hits. Qed.

(** Sorting orders the hits, when distances are compared by a total and
    transitive relation. *)
Section Ascending.
Hypothesis leb_total : ∀ a b, score_leb a b = true ∨ score_leb b a = true.
Hypothesis leb_trans : ∀ a b c, score_leb a b = true → score_leb b c = true →
                                score_leb a c = true.

Let hit_le (h1 h2 : score * Z) : Prop := score_leb h1.1 h2.1 = true.

Lemma insert_hit_sorted h hs :
  StronglySorted hit_le hs → StronglySorted hit_le (insert_hit h hs).
Proof.
  induction 1 as [|h' hs Hs IH Hall]; cbn.
  { repeat constructor. }
  destruct (score_leb h.1 h'.1) eqn:Hle.
  - constructor; [by constructor|]. constructor; [done|].
    eapply Forall_impl; [exact Hall|]. intros x Hx. by eapply leb_trans.
  - constructor; [done|].
    rewrite insert_hit_perm. constructor; [|done].
    destruct (leb_total h.1 h'.1) as [Hc|Hc]; [congruence|done].
Qed.

Lemma sort_hits_sorted hs : StronglySorted hit_le (sort_hits hs).
Proof.
  induction hs as [|h hs IH]; cbn; [constructor|]. by apply insert_hit_sorted.
Qed.

Lemma take_sorted {A} (R : A → A → Prop) n l :
  StronglySorted R l → StronglySorted R (take n l).
Proof.
  intros Hl. revert n. induction Hl as [|x l Hl IH Hall]; intros [|n]; cbn;
    try constructor; [apply IH|]. by apply Forall_take.
Qed.

Lemma resolved_sorted (self : t) hs :
  StronglySorted hit_le hs → StronglySorted by_score (omap (resolve_hit self) hs).
Proof.
  induction 1 as [|h hs Hs IH Hall]; cbn; [constructor|].
  destruct (resolve_hit self h) as [r|] eqn:Hr; [|done].
  constructor; [done|]. apply Forall_forall. intros r' Hr'.
  apply list_elem_of_omap in Hr' as (h' & Hh' & Hr').
  apply resolve_hit_live in Hr as [_ Hr]. apply resolve_hit_live in Hr' as [_ Hr'].
  unfold by_score. rewrite Hr, Hr'.
  rewrite Forall_forall in Hall. by apply Hall.
Qed.

Lemma filter_sorted {A} (R : A → A → Prop) (P : A → Prop) `{∀ x, Decision (P x)} l :
  StronglySorted R l → StronglySorted R (filter P l).
Proof.
  induction 1 as [|x l Hl IH Hall]; [constructor|].
  rewrite filter_cons. case_decide; [|done].
  constructor; [done|]. apply Forall_forall. intros y [_ Hy]%list_elem_of_filter.
  rewrite Forall_forall in Hall. by apply Hall.
Qed.

(** X4: the results of [search] come in ascending order of distance. *)
Theorem search_results_ascending (self : t) q k th rs :
  search self q k th = Ret rs → StronglySorted by_score rs.
Proof.
  unfold search. destruct (Nat.eqb _ 0); [intros [= <-]; constructor|].
  destruct (index_search _ _ _) as [hits|e] eqn:Hhits; [|done].
  apply index_search_fetched in Hhits as ->. intros [= <-].
  assert (Hsorted : StronglySorted by_score
                      (omap (resolve_hit self) (fetched self q k))).
  { unfold fetched. rewrite resolve_nearest.
    apply resolved_sorted, take_sorted, sort_hits_sorted. }
  destruct th; [by apply filter_sorted|done].
Qed.

End Ascending.

(** *** Adding, removing and reading a document *)

Lemma add_document_returns io id cs es md (w : World) r w' :
  add_document io id cs es md w = (Ret r, w') →
  ∃ vs, es = EmbVectors vs
    ∧ r = id
    ∧ index (store w') = {| d := d (index (store w)); xb := xb (index (store w)) ++ vs |}
    ∧ doc_ids (store w') = doc_ids (store w) ++ replicate (length cs) id
    ∧ documents (store w')
      = <[id := {| chunks := cs; chunk_start_idx := length (doc_ids (store w));
                   filename := default id (md_filename (default no_metadata md));
                   upload_time := md_upload_time (default no_metadata md);
                   text := str_join " " cs |}]> (documents (store w)).
Proof.
  unfold add_document.
  destruct (index_add _ es) as [ix|e] eqn:Hadd; [|done].
  intros [= <- <-]. cbn. rewrite save_store. cbn.
  unfold index_add in Hadd. destruct es as [vs|]; [|done].
  destruct vs as [|v vs]; [done|]. repeat case_match; try done.
  injection Hadd as <-. by exists (v :: vs).
Qed.

(** X5: after an [add_document] that returns, a [search] with the
    dimension of the index and [top_k] at least [ntotal] finds every
    chunk of the new document whose embedding is at a distance in range
    from the query, with that distance.  It needs one id-lookup entry per
    vector before the call. *)
Theorem add_document_then_search io id cs es md (w w' : World) r q k :
  add_document io id cs es md w = (Ret r, w') →
  length (doc_ids (store w)) = ntotal (index (store w)) →
  length q = d (index (store w)) →
  (Z.of_nat (ntotal (index (store w'))) <= k)%Z →
  ∃ rs, search (store w') q k None = Ret rs
    ∧ ∀ i c v, cs !! i = Some c →
        (match es with EmbVectors vs => vs | EmbDict _ vs => vs end) !! i = Some v →
        in_range (l2_distance q v) = true →
        {| doc_id := id; chunk := c; score_of := l2_distance q v |} ∈ rs.
Proof.
  intros Hadd Hinv Hq Hk.
  apply add_document_returns in Hadd as (vs & -> & -> & Hix & Hids & Hdocs).
  destruct (search_returns_live_hits (store w') q k) as (rs & Hs & Hperm);
    [by rewrite Hix|done|].
  exists rs. split; [done|]. intros i c v Hc Hv Hrange. rewrite Hperm.
  apply list_elem_of_filter. split; [done|].
  unfold live_hits. apply list_elem_of_omap.
  exists (l2_distance q v, Z.of_nat (length (doc_ids (store w)) + i)). split.
  - unfold all_hits. rewrite Hix. cbn [xb].
    apply list_elem_of_lookup. exists (length (doc_ids (store w)) + i).
    rewrite list_lookup_imap, Hinv. unfold ntotal.
    rewrite lookup_app_r by lia.
    replace (length (xb (index (store w))) + i - length (xb (index (store w))))
      with i by lia.
    by rewrite Hv.
  - unfold resolve_hit. rewrite Hids, Hdocs, length_app, length_replicate.
    apply lookup_lt_Some in Hc as Hi.
    destruct (Z.ltb_spec (Z.of_nat (length (doc_ids (store w)) + i)) 0); [lia|].
    destruct (Z.geb_spec (Z.of_nat (length (doc_ids (store w)) + i))
                (Z.of_nat (length (doc_ids (store w)) + length cs))); [lia|].
    cbn [orb]. rewrite Nat2Z.id.
    rewrite lookup_app_r by lia.
    replace (length (doc_ids (store w)) + i - length (doc_ids (store w))) with i by lia.
    rewrite lookup_replicate_2 by done. cbn.
    rewrite lookup_insert_eq. cbn.
    replace (Z.of_nat (length (doc_ids (store w)) + i)
             - Z.of_nat (length (doc_ids (store w))))%Z with (Z.of_nat i) by lia.
    destruct (Z.ltb_spec (Z.of_nat i) 0); [lia|].
    destruct (Z.geb_spec (Z.of_nat i) (Z.of_nat (length cs))); [lia|].
    cbn [orb]. rewrite Nat2Z.id, Hc. done.
Qed.

(** X6: [remove_document] of a document that is in the map returns
    [True]; afterwards [has_document] is [False] for it, every other
    record is as before, and neither [doc_ids] nor the index has lost an
    entry. *)
Theorem remove_document_existing io id (w : World) :
  has_document (store w) id = true →
  let w' := snd (remove_document io id w) in
  fst (remove_document io id w) = true
  ∧ has_document (store w') id = false
  ∧ (∀ id', id' ≠ id → documents (store w') !! id' = documents (store w) !! id')
  ∧ doc_ids (store w') = doc_ids (store w)
  ∧ index (store w') = index (store w).
Proof.
  intros Hid. cbn zeta. unfold remove_document. rewrite Hid. cbn [negb fst snd].
  cbn. rewrite save_store. cbn. split_and!; try done.
  - apply has_document_false. cbn. apply lookup_delete_eq.
  - intros id' Hne. by rewrite lookup_delete_ne.
Qed.

(** X7: when [add_document] raises, the record of the document is
    already in the map, so [has_document] is [True] for it, while
    [doc_ids], the index and the store file are as before the call:
    nothing was indexed and nothing was saved. *)
Theorem add_document_raises_keeps_record io id cs es md (w : World) :
  is_ret (fst (add_document io id cs es md w)) = false →
  let w' := snd (add_document io id cs es md w) in
  has_document (store w') id = true
  ∧ (∀ id', id' ≠ id → documents (store w') !! id' = documents (store w) !! id')
  ∧ doc_ids (store w') = doc_ids (store w)
  ∧ index (store w') = index (store w)
  ∧ disk w' = disk w
  ∧ log w' = log w.
Proof.
  cbn zeta. unfold add_document.
  destruct (index_add _ es) as [ix|e]; [done|]. intros _. cbn.
  split_and!; try done.
  - apply has_document_true. cbn. rewrite lookup_insert_eq. eauto.
  - intros id' Hne. by rewrite lookup_insert_ne.
Qed.

(** What [add_document] stored is read back by [get_document]. *)
Lemma get_document_added io io' id cs es md (w : World) :
  let added := snd (add_document io id cs es md w) in
  get_document (store added) id
  = Some {| view_id := id;
            view_filename := default id (md_filename (default no_metadata md));
            view_upload_time := md_upload_time (default no_metadata md);
            view_text := str_join " " cs;
            view_chunks := cs;
            view_chunks_count := length cs |}
  ∧ get_document (store (snd (remove_document io' id added))) id = None.
Proof.
  cbn zeta.
  assert (Hdocs : documents (store (snd (add_document io id cs es md w))) !! id
                  = Some {| chunks := cs; chunk_start_idx := length (doc_ids (store w));
                            filename := default id (md_filename (default no_metadata md));
                            upload_time := md_upload_time (default no_metadata md);
                            text := str_join " " cs |}).
  { unfold add_document. destruct (index_add _ es); cbn; rewrite ?save_store; cbn;
      apply lookup_insert_eq. }
  split.
  - unfold get_document. rewrite Hdocs. done.
  - unfold get_document, remove_document.
    assert (Hhas : has_document (store (snd (add_document io id cs es md w))) id = true).
    { apply has_document_true. rewrite Hdocs. eauto. }
    rewrite Hhas. cbn. rewrite save_store. cbn. by rewrite lookup_delete_eq.
Qed.

(** X8: [get_document] reads back what [add_document] stored -- the
    chunks, their number, their join by spaces as the text, and the file
    name, which is the id when the metadata has none -- whether or not
    the call went on to raise; after [remove_document] of that id it
    returns [None]. *)
Theorem get_document_after_add io io' id cs es md (w : World) :
  let added := snd (add_document io id cs es md w) in
  get_document (store added) id
  = Some {| view_id := id;
            view_filename := default id (md_filename (default no_metadata md));
            view_upload_time := md_upload_time (default no_metadata md);
            view_text := str_join " " cs;
            view_chunks := cs;
            view_chunks_count := length cs |}
  ∧ get_document (store (snd (remove_document io' id added))) id = None.
Proof. apply get_document_added. Qed.

(** X9: [get_all_documents] lists every document of the map exactly
    once, under its id, with its file name, upload time and number of
    chunks, and lists nothing else. *)
Theorem get_all_documents_lists_each_once (self : t) :
  NoDup (summary_id <$> get_all_documents self)
  ∧ length (get_all_documents self) = size (documents self)
  ∧ ∀ s, s ∈ get_all_documents self
         ↔ ∃ info, documents self !! summary_id s = Some info
                   ∧ s = summary_of (summary_id s) info.
Proof.
  unfold get_all_documents. split_and!.
  - rewrite <- list_fmap_compose.
    apply (NoDup_fst_map_to_list (documents self)).
  - rewrite length_fmap. apply length_map_to_list.
  - intros s. rewrite list_elem_of_fmap. split.
    + intros ([id info] & -> & Hin). apply elem_of_map_to_list in Hin.
      exists info. done.
    + intros (info & Hinfo & Hs). exists (summary_id s, info). split; [done|].
      by apply elem_of_map_to_list.
Qed.

(** *** Restarting *)

Lemma step_store_path (w : World) (c : call) :
  store_path (store (step w c)) = store_path (store w).
Proof.
  destruct c as [io id cs es md|io id]; cbn.
  - unfold add_document. destruct (index_add _ es); cbn; rewrite ?save_store; done.
  - unfold remove_document. destruct (has_document _ _); cbn; rewrite ?save_store; done.
Qed.

Lemma mutating_step_disk (w : World) (c : call) :
  mutates w c →
  disk (step w c) = disk (save (io_of c) (set_store (store (step w c)) w)).
Proof.
  destruct c as [io id cs es md|io id]; cbn [mutates step io_of].
  - unfold add_document. destruct (index_add _ es); [|done]. intros _.
    cbn. rewrite save_store. done.
  - intros Hid. unfold remove_document. rewrite Hid. cbn. rewrite save_store. done.
Qed.

(** X10: after a mutating call whose write completed, constructing a
    [VectorStore] on the same path -- a restart -- gives back the
    document map, [doc_ids] and the index that were in memory when the
    call returned. *)
Theorem restart_after_completed_write (w : World) (c : call) dimension lg :
  mutates w c → io_of c = WriteCompletes →
  let restarted := init dimension (store_path (store w)) (disk (step w c)) lg in
  fst restarted = Ret ()
  ∧ documents (store (snd restarted)) = documents (store (step w c))
  ∧ doc_ids (store (snd restarted)) = doc_ids (store (step w c))
  ∧ index (store (snd restarted)) = index (store (step w c)).
Proof.
  intros Hmut Hio. cbn zeta.
  rewrite (mutating_step_disk w c Hmut), Hio.
  pose proof (save_completes (set_store (store (step w c)) w)) as Hsaved.
  cbn [store set_store] in Hsaved. rewrite step_store_path in Hsaved.
  unfold init, load. cbn [store disk fresh VectorStore.store_path].
  rewrite Hsaved. cbn. done.
Qed.

(** X11: after a mutating call whose write failed midway, a restart on
    the same path finds an unreadable file and comes up with an empty
    document map, an empty [doc_ids] and an empty index, with one error
    record in the log: the documents of every earlier call are gone too. *)
Theorem restart_after_failed_write (w : World) (c : call) dimension lg :
  mutates w c → io_of c = WriteFailsMidway →
  let restarted := init dimension (store_path (store w)) (disk (step w c)) lg in
  fst restarted = Ret ()
  ∧ documents (store (snd restarted)) = ∅
  ∧ doc_ids (store (snd restarted)) = []
  ∧ ntotal (index (store (snd restarted))) = 0
  ∧ ∃ msg, log (snd restarted) = lg ++ [LogError msg].
Proof.
  intros Hmut Hio. cbn zeta.
  rewrite (mutating_step_disk w c Hmut), Hio.
  unfold init, load. cbn [store disk fresh VectorStore.store_path save open_wb
                           pickle_dump set_disk set_store emit].
  rewrite step_store_path, lookup_insert_eq. cbn. split_and!; eauto.
Qed.

(** *** Slots that were not filled *)

Lemma sort_hits_reported (ix : IndexFlatL2) q hit :
  hit ∈ sort_hits (reported ix q) → hit ∈ all_hits ix q ∧ in_range hit.1 = true.
Proof.
  rewrite sort_hits_perm. unfold reported. rewrite list_elem_of_filter. tauto.
Qed.

(** X30: every result of [search] comes from a stored vector at a
    distance in range from the query, and carries that distance.  A slot
    that the index did not fill has the label [-1], which the loop of
    [search] skips; so a vector whose distance overflowed is never
    returned, live or not, and when no stored vector is in range the
    result is empty. *)
Theorem search_skips_out_of_range (self : t) q k th :
  (∀ rs, search self q k th = Ret rs →
     Forall (λ r, in_range (score_of r) = true
                  ∧ ∃ hit, hit ∈ all_hits (index self) q
                           ∧ resolve_hit self hit = Some r) rs)
  ∧ (reported (index self) q = [] → ∀ rs, search self q k th = Ret rs → rs = []).
Proof.
  assert (Hfrom : ∀ rs, search self q k th = Ret rs →
            Forall (λ r, ∃ hit, hit ∈ sort_hits (reported (index self) q)
                                ∧ resolve_hit self hit = Some r) rs).
  { intros rs Hs. unfold search in Hs. destruct (Nat.eqb _ 0).
    { injection Hs as <-. constructor. }
    destruct (index_search _ _ _) as [hits|e] eqn:Hhits; [|done].
    apply index_search_fetched in Hhits as ->. injection Hs as <-.
    unfold fetched. rewrite resolve_nearest.
    apply Forall_forall. intros r Hr.
    assert (Hin : r ∈ omap (resolve_hit self)
                        (take (Z.to_nat (Z.min k (Z.of_nat (ntotal (index self)))))
                           (sort_hits (reported (index self) q)))).
    { destruct th; [by apply list_elem_of_filter in Hr as [_ Hr]|done]. }
    apply list_elem_of_omap in Hin as (hit & Hhit & Hres).
    exists hit. split; [|done]. by eapply subseteq_take. }
  split.
  - intros rs Hs. apply Hfrom in Hs. eapply Forall_impl; [exact Hs|]. cbn.
    intros r (hit & Hhit & Hres). apply sort_hits_reported in Hhit as [Hall Hrange].
    apply resolve_hit_live in Hres as Hscore. destruct Hscore as [_ Hscore].
    rewrite Hscore. eauto.
  - intros Hnone rs Hs. apply Hfrom in Hs. rewrite Hnone in Hs. cbn in Hs.
    destruct rs as [|r rs]; [done|].
    apply Forall_cons in Hs as [(hit & Hhit & _) _]. by apply elem_of_nil in Hhit.
Qed.

(** *** The constructor *)

(** X29: the constructor and the directory of the store file.  For a
    store path whose directory name is empty -- a bare file name -- the
    constructor raises [FileNotFoundError] whatever is on the disk, and
    [load] does not run.  Where the directory exists the constructor is
    the assignments followed by [load].  Where it does not exist, the
    constructor creates it, logs that and goes on to [load], or raises
    with [os.makedirs]. *)
Theorem constructor_directory_step dirs mk dimension p (dk : gmap string store_file) lg :
  let start := {| store := fresh dimension p; disk := dk; log := lg |} in
  (dirname p = EmptyString →
   __init__ dirs mk dimension p dk lg
   = (Raise (Exception "[Errno 2] No such file or directory: ''"), start))
  ∧ (path_exists dirs dk (dirname p) = true →
     __init__ dirs mk dimension p dk lg = init dimension p dk lg)
  ∧ (path_exists dirs dk (dirname p) = false → dirname p ≠ EmptyString →
     match mk with
     | MakedirsCompletes =>
         __init__ dirs mk dimension p dk lg
         = init dimension p dk
             (lg ++ [LogInfo ("Created directory for vector store: " +:+ dirname p)])
     | MakedirsFails =>
         __init__ dirs mk dimension p dk lg = (Raise (Exception "Permission denied"), start)
     end).
Proof.
  cbn zeta. unfold __init__, _ensure_directory_exists, init.
  cbn [store disk fresh VectorStore.store_path]. split_and!.
  - intros Hdir. rewrite Hdir. unfold path_exists, makedirs. cbn. done.
  - intros Hdir. by rewrite Hdir.
  - intros Hdir Hne. rewrite Hdir. unfold makedirs.
    destruct (dirname p) as [|c rest] eqn:Hname; [done|]. cbn [Chunker.is_empty].
    by destruct mk.
Qed.

(** *** Growth *)

Lemma step_doc_ids_prefix (w : World) (c : call) :
  doc_ids (store w) `prefix_of` doc_ids (store (step w c)).
Proof.
  destruct c as [io id cs es md|io id]; cbn.
  - unfold add_document. destruct (index_add _ es); cbn; rewrite ?save_store; cbn;
      [by apply prefix_app_r|done].
  - unfold remove_document. destruct (has_document _ _); cbn; rewrite ?save_store; done.
Qed.

(** X12: no sequence of [add_document] and [remove_document] calls ever
    takes an entry out of [doc_ids] or a vector out of the index: both
    keep what they had as a prefix, so [ntotal] never goes down, also
    when every document has been removed. *)
Theorem index_never_shrinks (cs : list call) (w : World) :
  doc_ids (store w) `prefix_of` doc_ids (store (run cs w))
  ∧ xb (index (store w)) `prefix_of` xb (index (store (run cs w)))
  ∧ ntotal (index (store w)) ≤ ntotal (index (store (run cs w))).
Proof.
  split_and!.
  - revert w. unfold run. induction cs as [|c cs IH]; intros w; cbn; [done|].
    etrans; [apply (step_doc_ids_prefix w c)|apply IH].
  - apply run_index_prefix.
  - unfold ntotal. apply prefix_length, run_index_prefix.
Qed.

End VectorStoreMoreFacts.

(** * Further properties of the chunkers *)
Section ChunkerMoreFacts.
Import Chunker.

Lemma append_assoc (a b c : string) : (a +:+ b) +:+ c = a +:+ (b +:+ c).
Proof.
  induction a as [|x a IH]; [reflexivity|].
  change (String x ((a +:+ b) +:+ c) = String x (a +:+ (b +:+ c))).
  f_equal. exact IH.
Qed.

Lemma append_empty_l (s : string) : EmptyString +:+ s = s.
Proof. reflexivity. Qed.

Lemma append_cons (c : ascii) (a b : string) :
  String c a +:+ b = String c (a +:+ b).
Proof. reflexivity. Qed.

(** *** [split_into_chunks] on small inputs *)

Lemma split_blank_lines_pair (c c' : ascii) (rest cur : string) :
  split_blank_lines (String c (String c' rest)) cur
  = if Ascii.eqb c newline && Ascii.eqb c' newline
    then cur :: split_blank_lines rest EmptyString
    else split_blank_lines (String c' rest) (cur +:+ String c EmptyString).
Proof. reflexivity. Qed.

Lemma split_blank_lines_last (c : ascii) (cur : string) :
  split_blank_lines (String c EmptyString) cur = [cur +:+ String c EmptyString].
Proof. reflexivity. Qed.

Lemma lstrip_all_space (s : string) : all_space s = true → lstrip s = EmptyString.
Proof.
  induction s as [|c rest IH]; cbn [all_space lstrip]; [done|].
  intros [Hc Hrest]%andb_true_iff. rewrite Hc. by apply IH.
Qed.

Lemma all_space_snoc (cur : string) (c : ascii) :
  all_space cur = true → py_isspace c = true →
  all_space (cur +:+ String c EmptyString) = true.
Proof.
  intros Hcur Hc. induction cur as [|x cur IH].
  - rewrite append_empty_l. cbn [all_space]. by rewrite Hc.
  - rewrite append_cons. cbn [all_space] in *.
    apply andb_true_iff in Hcur as [Hx Hcur]. rewrite Hx. by apply IH.
Qed.

Lemma split_blank_lines_all_space (s cur : string) :
  all_space s = true → all_space cur = true →
  Forall (λ p, all_space p = true) (split_blank_lines s cur).
Proof.
  revert cur. induction s as [s IH] using (induction_ltof1 _ String.length).
  unfold ltof in IH.
  intros cur Hs Hcur. destruct s as [|c [|c' rest']].
  - by constructor.
  - rewrite split_blank_lines_last.
    cbn [all_space] in Hs. apply andb_true_iff in Hs as [Hc _].
    constructor; [|constructor]. by apply all_space_snoc.
  - rewrite split_blank_lines_pair.
    cbn [all_space] in Hs. apply andb_true_iff in Hs as [Hc Hs].
    apply andb_true_iff in Hs as [Hc' Hs].
    destruct (Ascii.eqb c newline && Ascii.eqb c' newline).
    + constructor; [done|]. apply IH; [cbn; lia|done|done].
    + apply IH; [cbn; lia| |by apply all_space_snoc].
      cbn [all_space]. by rewrite Hc', Hs.
Qed.

(** X13: a text that consists of whitespace only -- the empty text, or
    blanks and newlines -- gives no chunk at all. *)
Theorem split_into_chunks_blank (text : string) (chunk_size overlap : Z) :
  all_space text = true → split_into_chunks (Str text) chunk_size overlap = [].
Proof.
  intros Htext. unfold split_into_chunks. cbn [ensure_text_is_string].
  destruct (is_empty text); [done|].
  assert (Hps : paragraphs_of text = []).
  { unfold paragraphs_of.
    pose proof (split_blank_lines_all_space text EmptyString Htext eq_refl) as Hall.
    induction Hall as [|p ps Hp _ IH]; [done|]. cbn.
    unfold strip at 1. rewrite (lstrip_all_space p Hp). cbn. exact IH. }
  rewrite Hps. done.
Qed.

Lemma split_blank_lines_one (s cur : string) :
  has_blank_line s = false → split_blank_lines s cur = [cur +:+ s].
Proof.
  revert cur. induction s as [|c rest IH]; intros cur Hs.
  - cbn. by rewrite append_empty_r.
  - destruct rest as [|c' rest'].
    + done.
    + rewrite split_blank_lines_pair.
      change (has_blank_line (String c (String c' rest')))
        with ((Ascii.eqb c newline && Ascii.eqb c' newline)
              || has_blank_line (String c' rest')) in Hs.
      apply orb_false_iff in Hs as [Hcc Hrest]. rewrite Hcc.
      rewrite (IH _ Hrest). by rewrite append_snoc.
Qed.

(** X14: a text without a blank line whose stripped form is not empty and
    fits in [chunk_size] comes back as exactly one chunk, the stripped
    text. *)
Theorem split_into_chunks_short (text : string) (chunk_size overlap : Z) :
  has_blank_line text = false →
  is_empty (strip text) = false →
  (len (strip text) <= chunk_size)%Z →
  split_into_chunks (Str text) chunk_size overlap = [strip text].
Proof.
  intros Hone Hne Hfits. unfold split_into_chunks. cbn [ensure_text_is_string].
  destruct (is_empty text) eqn:Hempty.
  { destruct text; [|done]. discriminate Hne. }
  unfold paragraphs_of. rewrite (split_blank_lines_one text EmptyString Hone).
  rewrite append_empty_l. cbn [omap list_omap]. rewrite Hne. cbn [foldl].
  unfold paragraph_step. cbn [current_length current_chunk chunks].
  destruct (Z.gtb_spec (0 + len (strip text)) chunk_size) as [Hgt|_]; [lia|].
  cbn. done.
Qed.

(** *** Joining what was split *)

Lemma str_join_cons (sep p : string) (rest : list string) :
  rest ≠ [] → str_join sep (p :: rest) = p +:+ sep +:+ str_join sep rest.
Proof. by destruct rest. Qed.

Lemma str_join_app (sep : string) (l1 l2 : list string) :
  l1 ≠ [] → l2 ≠ [] →
  str_join sep (l1 ++ l2) = str_join sep l1 +:+ sep +:+ str_join sep l2.
Proof.
  intros H1 H2. induction l1 as [|p l1 IH]; [done|].
  destruct l1 as [|q l1].
  - cbn [app]. by rewrite str_join_cons.
  - rewrite <- app_comm_cons. rewrite str_join_cons by done.
    rewrite IH by done. rewrite (str_join_cons sep p (q :: l1)) by done.
    by rewrite !append_assoc.
Qed.

Lemma split_blank_lines_not_nil (s cur : string) : split_blank_lines s cur ≠ [].
Proof.
  revert cur. induction s as [s IH] using (induction_ltof1 _ String.length).
  unfold ltof in IH.
  intros cur. destruct s as [|c [|c' rest']]; [done|done|].
  rewrite split_blank_lines_pair.
  destruct (_ && _); [done|]. apply IH. cbn. lia.
Qed.

(** [str.split('\n\n')] undone by ['\n\n'.join]. *)
Lemma join_split_blank_lines (s cur : string) :
  str_join blank_line (split_blank_lines s cur) = cur +:+ s.
Proof.
  revert cur. induction s as [s IH] using (induction_ltof1 _ String.length).
  unfold ltof in IH.
  intros cur. destruct s as [|c [|c' rest']].
  - cbn. by rewrite append_empty_r.
  - done.
  - rewrite split_blank_lines_pair.
    destruct (Ascii.eqb c newline && Ascii.eqb c' newline) eqn:Hnn.
    + apply andb_true_iff in Hnn as [->%Ascii.eqb_eq ->%Ascii.eqb_eq].
      rewrite str_join_cons by apply split_blank_lines_not_nil.
      rewrite IH by (cbn; lia). done.
    + rewrite IH by (cbn; lia). by rewrite append_snoc.
Qed.

Lemma split_sections_concat (s cur : string) :
  str_join EmptyString (split_sections s cur) = cur +:+ s.
Proof.
  revert cur. induction s as [|c rest IH]; intros cur; cbn [split_sections].
  - cbn. by rewrite append_empty_r.
  - destruct (starts_heading (String c rest)).
    + assert (Hne : split_sections rest (String c EmptyString) ≠ []).
      { clear. generalize (String c EmptyString). induction rest as [|x r IHr];
          intros a; cbn [split_sections]; [done|]. destruct (starts_heading _); [done|].
        apply IHr. }
      rewrite str_join_cons by done. rewrite IH. done.
    + rewrite IH. by rewrite append_snoc.
Qed.

(** *** [improved_chunking] *)

Lemma packing_step_flush (chunk_size : Z) (st : packing_state) (p : string) :
  ((p_length st + len p >? chunk_size)%Z && negb (is_nil (p_current st))) = true →
  packing_step chunk_size st p
  = {| p_chunks := p_chunks st ++ [str_join blank_line (p_current st)];
       p_metadata := p_metadata st
                     ++ [section_metadata (str_join blank_line (p_current st))];
       p_current := [p]; p_length := (0 + len p)%Z |}.
Proof. intros Hflush. unfold packing_step. by rewrite Hflush. Qed.

Lemma packing_step_keep (chunk_size : Z) (st : packing_state) (p : string) :
  ((p_length st + len p >? chunk_size)%Z && negb (is_nil (p_current st))) = false →
  packing_step chunk_size st p
  = {| p_chunks := p_chunks st; p_metadata := p_metadata st;
       p_current := p_current st ++ [p]; p_length := (p_length st + len p)%Z |}.
Proof. intros Hkeep. unfold packing_step. by rewrite Hkeep. Qed.

Lemma packing_loop (chunk_size : Z) (ps : list string) (st : packing_state) :
  p_current st ++ ps ≠ [] →
  let final := foldl (packing_step chunk_size) st ps in
  p_current final ≠ []
  ∧ ∃ closed,
      p_chunks final = p_chunks st ++ closed
      ∧ p_metadata final = p_metadata st ++ (section_metadata <$> closed)
      ∧ str_join blank_line (closed ++ [str_join blank_line (p_current final)])
        = str_join blank_line (p_current st ++ ps).
Proof.
  revert st. induction ps as [|p ps IH]; intros st Hne; cbn zeta.
  - rewrite app_nil_r in *. cbn [foldl]. split; [done|]. exists [].
    rewrite !app_nil_r. done.
  - cbn [foldl].
    destruct ((p_length st + len p >? chunk_size)%Z && negb (is_nil (p_current st)))
      eqn:Hflush.
    + rewrite (packing_step_flush _ _ _ Hflush).
      destruct (IH {| p_chunks := p_chunks st ++ [str_join blank_line (p_current st)];
                      p_metadata := p_metadata st
                        ++ [section_metadata (str_join blank_line (p_current st))];
                      p_current := [p]; p_length := (0 + len p)%Z |})
        as (Hcur & closed & Hc & Hm & Hj); [done|].
      cbn [p_chunks p_metadata p_current] in Hc, Hm, Hj.
      split; [done|]. exists (str_join blank_line (p_current st) :: closed).
      rewrite Hc, Hm, <- !app_assoc. cbn [fmap list_fmap app].
      split_and!; [done|done|].
      apply andb_true_iff in Hflush as [_ Hcur0].
      assert (Hst : p_current st ≠ []) by (by destruct (p_current st)).
      rewrite str_join_cons by (by destruct closed).
      rewrite Hj. cbn [app]. by rewrite (str_join_app _ (p_current st) (p :: ps)).
    + rewrite (packing_step_keep _ _ _ Hflush).
      destruct (IH {| p_chunks := p_chunks st; p_metadata := p_metadata st;
                      p_current := p_current st ++ [p];
                      p_length := (p_length st + len p)%Z |})
        as (Hcur & closed & Hc & Hm & Hj).
      { cbn [p_current]. by destruct (p_current st). }
      cbn [p_chunks p_metadata p_current] in Hc, Hm, Hj.
      split; [done|]. exists closed. rewrite Hj, <- app_assoc. done.
Qed.

Lemma section_step_groups (chunk_size : Z) (acc : list string * list chunk_metadata)
    (section : string) :
  ∃ group,
    group ≠ []
    ∧ (section_step chunk_size acc section).1 = acc.1 ++ group
    ∧ (section_step chunk_size acc section).2 = acc.2 ++ (section_metadata <$> group)
    ∧ str_join blank_line group = section.
Proof.
  unfold section_step. destruct (len section >? chunk_size)%Z.
  - destruct (packing_loop chunk_size (split_blank_lines section EmptyString)
                {| p_chunks := acc.1; p_metadata := acc.2; p_current := [];
                   p_length := 0 |}) as (Hcur & closed & Hc & Hm & Hj).
    { cbn. apply split_blank_lines_not_nil. }
    cbn [p_chunks p_metadata p_current app] in Hc, Hm, Hj.
    rewrite join_split_blank_lines in Hj.
    destruct (is_nil _) eqn:Hnil.
    { by destruct (p_current _). }
    exists (closed ++ [str_join blank_line (p_current
              (foldl (packing_step chunk_size)
                 {| p_chunks := acc.1; p_metadata := acc.2; p_current := [];
                    p_length := 0 |} (split_blank_lines section EmptyString)))]).
    cbn [fst snd]. rewrite Hc, Hm, fmap_app, <- !app_assoc. cbn [fmap list_fmap].
    split_and!; try done. by destruct closed.
  - exists [section]. cbn. done.
Qed.

(** X15: [improved_chunking] loses and reorders nothing, and its
    metadata is parallel to its chunks.  The chunks fall into consecutive
    non-empty groups, one per section of the text; joining the chunks of
    a group with blank lines gives that section, and the sections put
    end to end are the text.  The metadata entry of each chunk carries
    the length of that chunk. *)
Theorem improved_chunking_keeps_text (text : string) (chunk_size : Z) :
  let result := improved_chunking text chunk_size in
  result.2 = section_metadata <$> result.1
  ∧ ∃ groups,
      result.1 = concat groups
      ∧ Forall (λ group, group ≠ []) groups
      ∧ str_join blank_line <$> groups = split_sections text EmptyString
      ∧ str_join EmptyString (str_join blank_line <$> groups) = text.
Proof.
  cbn zeta. unfold improved_chunking.
  assert (Hloop : ∀ sections acc,
    ∃ groups,
      (foldl (section_step chunk_size) acc sections).1 = acc.1 ++ concat groups
      ∧ (foldl (section_step chunk_size) acc sections).2
        = acc.2 ++ (section_metadata <$> concat groups)
      ∧ Forall (λ group, group ≠ []) groups
      ∧ str_join blank_line <$> groups = sections).
  { induction sections as [|section sections IH]; intros acc; cbn [foldl].
    - exists []. cbn. rewrite !app_nil_r. done.
    - destruct (section_step_groups chunk_size acc section) as (g & Hg & H1 & H2 & Hj).
      destruct (IH (section_step chunk_size acc section)) as (gs & G1 & G2 & Gne & Gj).
      exists (g :: gs). rewrite G1, G2, H1, H2. cbn [concat fmap list_fmap].
      rewrite fmap_app, <- !app_assoc, Hj. split_and!; try done.
      + by constructor.
      + by rewrite <- Gj. }
  destruct (Hloop (split_sections text EmptyString) ([], [])) as (gs & G1 & G2 & Gne & Gj).
  cbn [fst snd app] in G1, G2. split.
  - by rewrite G1, G2.
  - exists gs. split_and!; try done.
    rewrite Gj. by rewrite split_sections_concat.
Qed.

End ChunkerMoreFacts.

(** * Further properties of the upload route *)
Section UploadMoreFacts.
Context `{Num : Numeric}.
Context (md5_hexdigest : list Byte.byte → string).
Context (secure_filename : string → string).
Context (extract_text_from_pdf : list Byte.byte → string).
Context (generate_embeddings : string → res (list string * list (list scalar))).
Import VectorStore Routes.

Lemma after_last_dot_none (s : string) : has_dot s = false → after_last_dot s = None.
Proof.
  induction s as [|c rest IH]; cbn [has_dot after_last_dot]; [done|].
  intros [Hc Hrest]%orb_false_iff. by rewrite (IH Hrest), Hc.
Qed.

Lemma after_last_dot_ext (base ext : string) :
  has_dot ext = false →
  after_last_dot (base +:+ String "."%char ext) = Some ext.
Proof.
  intros Hext. induction base as [|c base IH].
  - rewrite append_empty_l. cbn [after_last_dot].
    by rewrite (after_last_dot_none ext Hext).
  - rewrite append_cons. cbn [after_last_dot]. by rewrite IH.
Qed.

(** X16: [allowed_file] looks only at what follows the last dot of the
    name and compares it with [pdf] without regard to case; a name
    without a dot is refused. *)
Theorem allowed_file_last_extension :
  (∀ base ext, has_dot ext = false →
     allowed_file (base +:+ String "."%char ext) = String.eqb (lower ext) "pdf")
  ∧ (∀ name, has_dot name = false → allowed_file name = false).
Proof.
  split.
  - intros base ext Hext. unfold allowed_file. by rewrite (after_last_dot_ext _ _ Hext).
  - intros name Hname. unfold allowed_file. by rewrite (after_last_dot_none _ Hname).
Qed.

(** X17: no upload, whatever the request, changes the index, [doc_ids]
    or the store file; an upload answered with status 400 or with
    [File already processed] changes nothing at all, and one answered
    with status 400 has at most run the text extraction. *)
Theorem upload_never_indexes io now request (w : World) :
  let answer := upload_file md5_hexdigest secure_filename extract_text_from_pdf
                  generate_embeddings io now request w in
  index (store answer.1.2) = index (store w)
  ∧ doc_ids (store answer.1.2) = doc_ids (store w)
  ∧ disk answer.1.2 = disk w
  ∧ (status_of answer.1.1 = 400 ∨ (∃ id name, answer.1.1 = AlreadyProcessed id name) →
     answer.1.2 = w)
  ∧ (status_of answer.1.1 = 400 → answer.2 = [] ∨ answer.2 = [TextExtraction]).
Proof.
  cbn zeta. unfold upload_file.
  destruct (file request) as [[name file_content]|]; [|cbn; split_and!; eauto].
  destruct (Chunker.is_empty name); [cbn; split_and!; eauto|].
  destruct (negb (allowed_file name)); [cbn; split_and!; eauto|].
  destruct (has_document _ _); [cbn; split_and!; eauto|].
  destruct (Chunker.is_empty (extract_text_from_pdf file_content));
    [cbn; split_and!; eauto|].
  destruct (generate_embeddings _) as [[cs vs]|e].
  - unfold add_document. rewrite index_add_dict. cbn.
    split_and!; try done.
    + intros [|(id & name' & ?)]; done.
  - cbn. split_and!; try done. intros [|(id & name' & ?)]; done.
Qed.

End UploadMoreFacts.

(** * Further properties of the RAG query *)
Section QueryMoreFacts.
Context `{Num : Numeric}.
Context (rt : RAG.Runtime).
Import RAG.

Lemma _generate_response_text (self : t) question context :
  match llm_model self with
  | None => True
  | Some llm => text_provider llm
  end →
  ∃ answer, _generate_response rt self question context = PStr answer.
Proof.
  unfold _generate_response. destruct (llm_model self) as [llm|]; [|eauto].
  intros Htext. destruct (build_prompt rt context question) as [prompt|e];
    [|unfold generation_error; eauto].
  pose proof (Htext prompt) as Hprompt. unfold generation in Hprompt.
  assert (Hfinish : ∀ generated,
            (∀ response, generated = Ret response → is_str response = true) →
            ∃ answer,
              match generated with
              | Raise e => generation_error e
              | Ret response =>
                  match _format_response rt (cleanup_response rt response) with
                  | Ret formatted => formatted
                  | Raise e => generation_error e
                  end
              end = PStr answer).
  { intros [response|e] Hg; [|unfold generation_error; eauto].
    specialize (Hg response eq_refl). destruct response; try done.
    cbn. destruct (Chunker.is_empty s); cbn; eauto. }
  destruct (generate llm) as [f|].
  { apply Hfinish. intros response Hr. apply Hprompt. by rewrite Hr. }
  destruct (predict llm) as [f|].
  { apply Hfinish. intros response Hr. apply Hprompt. by rewrite Hr. }
  destruct (call llm) as [f|]; [|eauto].
  apply Hfinish. intros response Hr. apply Hprompt. by rewrite Hr.
Qed.

(** X18: when there is no language model, or the generation method of
    the language model returns a [str] whenever it returns, [query]
    returns a [str], whatever the embedding model, the vector store, the
    reranking and the prompt building do, exceptions included. *)
Theorem query_returns_text (self : t) question context k rerank :
  match llm_model self with
  | None => True
  | Some llm => text_provider llm
  end →
  ∃ answer, query rt self question context k rerank = Ret (PStr answer).
Proof.
  intros Htext. unfold query, query_try.
  destruct (py_truthy rt context) as [[|]|e]; [| |eauto].
  { destruct (_generate_response_text self question context Htext) as [a ->]. eauto. }
  destruct (is_none _); [eauto|].
  destruct (retrieve _ _ _ _) as [docs|e]; [|eauto].
  destruct rerank.
  - destruct (py_len docs) as [n|e]; [|eauto].
    destruct (_generate_response_text self question
                (if (1 <? n)%nat then _rerank_documents rt self question docs else docs)
                Htext) as [a ->]. eauto.
  - destruct (_generate_response_text self question docs Htext) as [a ->]. eauto.
Qed.

(** X19: a system constructed without a usable embedding model -- none
    was given and the default could not be loaded, or the given object
    has none of [encode], [embed_query] and [embed_documents] -- answers
    every question that comes without context with the fixed message
    about the embedding model. *)
Theorem query_without_embedding default_model store m llm question context k rerank :
  py_truthy rt context = Ret false →
  no_embedding_method m →
  let unable := PStr "Unable to generate embedding for your question. Please check embedding model configuration." in
  query rt (init None store None llm) question context k rerank = Ret unable
  ∧ query rt (init default_model store (Some m) llm) question context k rerank
    = Ret unable.
Proof.
  intros Hctx (Henc & Hq & Hd). cbn zeta. unfold query, query_try. rewrite Hctx.
  unfold _get_query_embedding, init. cbn. rewrite Henc, Hq, Hd. cbn. done.
Qed.

(** X20: when the embedding is there and the primary [search] raises,
    the answer of [query] is the apology with the text of the exception
    that ended the retrieval: the fixed text about missing methods when
    the store has no [similarity_search], and the exception of
    [similarity_search] when that raises too. *)
Theorem query_retrieval_failure (self : t) question context k rerank e :
  py_truthy rt context = Ret false →
  is_none (_get_query_embedding self question) = false →
  search (vector_store self) (_get_query_embedding self question) k = Raise e →
  match similarity_search (vector_store self) with
  | None =>
      query rt self question context k rerank
      = Ret (PStr ("Sorry, I encountered an error: "
                   +:+ "Vector store doesn't support search or similarity_search methods"))
  | Some fallback =>
      ∀ e', fallback question k = Raise e' →
            query rt self question context k rerank
            = Ret (PStr ("Sorry, I encountered an error: " +:+ exn_str e'))
  end.
Proof.
  intros Hctx Hemb Hsearch. unfold query, query_try, retrieve.
  rewrite Hctx, Hemb, Hsearch.
  destruct (similarity_search (vector_store self)) as [f|]; [|done].
  intros e' He'. by rewrite He'.
Qed.

End QueryMoreFacts.

(** * Properties of the page chunker *)
Section PageChunkerFacts.
Import PDFProcessor.

Lemma length_substring_le (n m : nat) (s : string) :
  String.length (substring n m s) ≤ m.
Proof.
  revert n m. induction s as [|c s IH]; intros [|n] [|m]; cbn; try lia.
  - specialize (IH 0 m). lia.
  - specialize (IH n 0). lia.
  - specialize (IH n (S m)). lia.
Qed.

Lemma length_slice_le (s : string) (start size : Z) :
  (0 <= start)%Z → (0 <= size)%Z →
  (Z.of_nat (String.length (slice s start (start + size))) <= size)%Z.
Proof.
  intros Hstart Hsize. unfold slice.
  destruct (Z.ltb_spec (start + size) 0) as [Hneg|_]; [lia|].
  pose proof (length_substring_le
                (Z.to_nat (Z.min start (Z.of_nat (String.length s))))
                (Z.to_nat (Z.min (start + size) (Z.of_nat (String.length s))
                           - Z.min start (Z.of_nat (String.length s)))) s).
  lia.
Qed.

(** X21: with [chunk_overlap] equal to [chunk_size], [_chunk_text] raises
    for every text, the empty one included; with [chunk_overlap] larger
    than [chunk_size] it returns no chunk at all, whatever the text. *)
Theorem chunk_text_degenerate_step (chunk_size chunk_overlap : Z) text page_num
    doc_id pdf_path :
  (chunk_overlap = chunk_size →
   is_ret (_chunk_text chunk_size chunk_overlap text page_num doc_id pdf_path) = false)
  ∧ ((chunk_size < chunk_overlap)%Z →
     _chunk_text chunk_size chunk_overlap text page_num doc_id pdf_path = Ret []).
Proof.
  unfold _chunk_text, range_from_zero. split.
  - intros ->. by rewrite Z.sub_diag.
  - intros Hlt. destruct (Z.eqb_spec (chunk_size - chunk_overlap) 0); [lia|].
    destruct (Z.ltb_spec (chunk_size - chunk_overlap) 0); [done|lia].
Qed.

(** X22: with [0 <= chunk_overlap < chunk_size], [_chunk_text] returns;
    it returns at most one chunk per step of
    [chunk_size - chunk_overlap] characters, and every chunk is at most
    [chunk_size] characters long and is not blank. *)
Theorem chunk_text_bounds (chunk_size chunk_overlap : Z) text page_num doc_id pdf_path :
  (0 <= chunk_overlap)%Z → (chunk_overlap < chunk_size)%Z →
  ∃ docs,
    _chunk_text chunk_size chunk_overlap text page_num doc_id pdf_path = Ret docs
    ∧ (Z.of_nat (length docs)
       <= (Chunker.len text + (chunk_size - chunk_overlap) - 1)
          / (chunk_size - chunk_overlap))%Z
    ∧ Forall (λ doc, (Chunker.len (page_content doc) <= chunk_size)%Z
                     ∧ Chunker.is_empty (Chunker.strip (page_content doc)) = false)
        docs.
Proof.
  intros Hov Hlt. unfold _chunk_text, range_from_zero.
  destruct (Z.eqb_spec (chunk_size - chunk_overlap) 0); [lia|].
  destruct (Z.ltb_spec (chunk_size - chunk_overlap) 0); [lia|].
  eexists. split; [done|]. split.
  - etrans; [apply inj_le, length_omap_le|].
    rewrite length_fmap, length_seq. rewrite Z2Nat.id; [lia|].
    apply Z.div_pos; [|lia]. unfold Chunker.len. lia.
  - apply Forall_forall. intros doc Hdoc.
    apply list_elem_of_omap in Hdoc as (i & Hi & Hdoc).
    apply list_elem_of_fmap in Hi as (j & -> & _).
    unfold chunk_at in Hdoc.
    destruct (Chunker.is_empty _) eqn:Hblank; [done|].
    injection Hdoc as <-. cbn [page_content]. split; [|done].
    unfold Chunker.len. apply length_slice_le; [|lia].
    apply Z.mul_nonneg_nonneg; lia.
Qed.

(** X23: chunk ids are not unique.  With [0 < chunk_overlap < chunk_size]
    and a text longer than one step whose first two windows are not
    blank, the first two chunks start at different offsets and carry the
    same [id] and the same chunk number [0]. *)
Theorem chunk_text_ids_collide (chunk_size chunk_overlap : Z) text page_num doc_id
    pdf_path :
  (0 < chunk_overlap)%Z → (chunk_overlap < chunk_size)%Z →
  (chunk_size - chunk_overlap < Chunker.len text)%Z →
  Chunker.is_empty (Chunker.strip (slice text 0 (0 + chunk_size))) = false →
  Chunker.is_empty (Chunker.strip (slice text (chunk_size - chunk_overlap)
                                     (chunk_size - chunk_overlap + chunk_size))) = false →
  ∃ first second rest,
    _chunk_text chunk_size chunk_overlap text page_num doc_id pdf_path
    = Ret (first :: second :: rest)
    ∧ page_content first = slice text 0 (0 + chunk_size)
    ∧ page_content second = slice text (chunk_size - chunk_overlap)
                              (chunk_size - chunk_overlap + chunk_size)
    ∧ md_id first = md_id second
    ∧ md_chunk first = 0%Z ∧ md_chunk second = 0%Z.
Proof.
  intros Hov Hlt Hlong Hfirst Hsecond. unfold _chunk_text, range_from_zero.
  set (step := (chunk_size - chunk_overlap)%Z) in *.
  destruct (Z.eqb_spec step 0) as [?|_]; [lia|].
  destruct (Z.ltb_spec step 0) as [?|Hpos]; [lia|].
  assert (Hcount : (2 <= (Chunker.len text + step - 1) / step)%Z).
  { apply Z.div_le_lower_bound; lia. }
  destruct (Z.to_nat ((Chunker.len text + step - 1) / step)) as [|[|more]] eqn:Hn; [lia|lia|].
  cbn [seq fmap list_fmap omap list_omap].
  replace (Z.of_nat 0 * step)%Z with 0%Z by lia.
  replace (Z.of_nat 1 * step)%Z with step by lia.
  unfold chunk_at at 1 2. rewrite Hfirst, Hsecond.
  assert (Hstep : (step / chunk_size = 0)%Z) by (apply Z.div_small; lia).
  do 3 eexists. split; [reflexivity|]. cbn. rewrite Hstep.
  assert (H0 : (0 / chunk_size = 0)%Z) by (apply Z.div_small; lia).
  rewrite H0. done.
Qed.

End PageChunkerFacts.

(** * Properties of the embedding manager *)
Section EmbeddingManagerFacts.
Context `{Num : Numeric}.
Context (zero : scalar).
Context (md5_hexdigest : string → string).
Import EmbeddingManager.

Abbreviation zeros384 := (zeros zero).
Abbreviation cached self text := (_cache self !! md5_hexdigest text).

Lemma scan_step_hit (cache : gmap string (list scalar)) st i text e :
  cache !! md5_hexdigest text = Some e →
  scan_step md5_hexdigest cache st (i, text)
  = {| embeddings := <[i := Some e]> (embeddings st);
       uncached_texts := uncached_texts st;
       uncached_indices := uncached_indices st |}.
Proof. intros Hc. unfold scan_step. cbn [fst snd]. by rewrite Hc. Qed.

Lemma scan_step_miss (cache : gmap string (list scalar)) st i text :
  cache !! md5_hexdigest text = None →
  scan_step md5_hexdigest cache st (i, text)
  = {| embeddings := embeddings st;
       uncached_texts := uncached_texts st ++ [text];
       uncached_indices := uncached_indices st ++ [i] |}.
Proof. intros Hc. unfold scan_step. cbn [fst snd]. by rewrite Hc. Qed.

Lemma insert_next {A} (done : list A) (x y : A) (rest : list A) :
  <[length done := x]> (done ++ y :: rest) = (done ++ [x]) ++ rest.
Proof.
  rewrite <- (Nat.add_0_r (length done)), insert_app_r. cbn.
  by rewrite <- app_assoc.
Qed.

Lemma scan_loop (cache : gmap string (list scalar)) (texts : list string) :
  ∀ (k : nat) (done : list (option (list scalar))) U_t U_i,
    length done = k →
    let st := foldl (scan_step md5_hexdigest cache)
                {| embeddings := done ++ replicate (length texts) None;
                   uncached_texts := U_t; uncached_indices := U_i |}
                (zip (seq k (length texts)) texts) in
    embeddings st = done ++ ((λ text, cache !! md5_hexdigest text) <$> texts)
    ∧ uncached_texts st
      = U_t ++ filter (λ text, cache !! md5_hexdigest text = None) texts
    ∧ ∃ new, uncached_indices st = U_i ++ new
        ∧ Forall (λ i, (done ++ ((λ text, cache !! md5_hexdigest text) <$> texts)) !! i
                       = Some None) new.
Proof.
  induction texts as [|text texts IH]; intros k done U_t U_i Hk; cbn zeta.
  - cbn. rewrite !app_nil_r. split_and!; try done. exists []. by rewrite app_nil_r.
  - cbn [length seq zip zip_with foldl replicate fmap list_fmap].
    destruct (cache !! md5_hexdigest text) as [e|] eqn:Hc.
    + rewrite (scan_step_hit _ _ _ _ _ Hc).
      cbn [embeddings uncached_texts uncached_indices].
      rewrite <- Hk, insert_next.
      destruct (IH (S (length done)) (done ++ [Some e]) U_t U_i)
        as (HE & HT & new & HI & Hnew).
      { rewrite length_app. cbn. lia. }
      rewrite HE, HT, HI. rewrite <- app_assoc in Hnew. cbn [app] in Hnew.
      rewrite <- app_assoc. cbn [app].
      split_and!; [done| |by exists new].
      rewrite filter_cons. case_decide; [congruence|done].
    + rewrite (scan_step_miss _ _ _ _ Hc).
      cbn [embeddings uncached_texts uncached_indices].
      replace (done ++ None :: replicate (length texts) None)
        with ((done ++ [None]) ++ replicate (length texts) None)
        by (by rewrite <- app_assoc).
      destruct (IH (S k) (done ++ [None]) (U_t ++ [text]) (U_i ++ [k]))
        as (HE & HT & new & HI & Hnew).
      { rewrite length_app. cbn. lia. }
      rewrite HE, HT, HI. rewrite <- app_assoc in Hnew. cbn [app] in Hnew.
      rewrite <- !app_assoc. cbn [app].
      split_and!; [done| |exists (k :: new)].
      * rewrite filter_cons. case_decide; [done|congruence].
      * split; [done|]. constructor; [|done].
        rewrite lookup_app_r by lia. rewrite Hk, Nat.sub_diag. done.
Qed.

Lemma store_loop_length use_cache cleaned pairs
    (st : list (option (list scalar)) * gmap string (list scalar)) :
  length (foldl (store_step md5_hexdigest use_cache cleaned) st pairs).1 = length st.1.
Proof.
  revert st. induction pairs as [|pair pairs IH]; intros st; cbn [foldl]; [done|].
  rewrite IH. cbn. by rewrite length_insert.
Qed.

Lemma zero_loop_length (filled : list (option (list scalar))) idxs :
  length (foldl (λ filled idx, <[idx := Some zeros384]> filled) filled idxs)
  = length filled.
Proof.
  revert filled. induction idxs as [|idx idxs IH]; intros filled; cbn [foldl]; [done|].
  rewrite IH. by rewrite length_insert.
Qed.

(** X24: [generate_embeddings] returns one embedding per text -- one for
    a single string, none for an empty list -- whatever is cached and
    whatever the embedding model returns or raises. *)
Theorem generate_embeddings_one_per_text (self : t) texts use_cache :
  length (generate_embeddings zero md5_hexdigest self texts use_cache).1
  = length (as_list texts).
Proof.
  unfold generate_embeddings. destruct (as_list texts) as [|text rest] eqn:Htexts; [done|].
  cbn [Chunker.is_nil]. cbn [fst]. rewrite length_fmap.
  set (cleaned := clean <$> text :: rest).
  assert (Hscan : ∀ scanned,
    length (embeddings scanned) = length cleaned →
    length (if Chunker.is_nil (uncached_texts scanned)
            then (embeddings scanned, _cache self)
            else match embed_documents self (uncached_texts scanned) with
                 | Ret batch_embeddings =>
                     foldl (store_step md5_hexdigest use_cache cleaned)
                       (embeddings scanned, _cache self)
                       (zip (uncached_indices scanned) batch_embeddings)
                 | Raise _ =>
                     (foldl (λ filled idx, <[idx := Some zeros384]> filled)
                        (embeddings scanned) (uncached_indices scanned), _cache self)
                 end).1 = length cleaned).
  { intros scanned Hlen. destruct (Chunker.is_nil _); [done|].
    destruct (embed_documents self _).
    - by rewrite store_loop_length.
    - cbn [fst]. by rewrite zero_loop_length. }
  rewrite Hscan.
  - unfold cleaned. by rewrite length_fmap.
  - destruct use_cache.
    + destruct (scan_loop (_cache self) cleaned 0 [] [] [] eq_refl) as (HE & _).
      cbn [app] in HE. rewrite HE. by rewrite length_fmap.
    + cbn. by rewrite length_replicate.
Qed.

Lemma zero_loop_default (filled : list (option (list scalar))) idxs :
  Forall (λ i, ∀ e, filled !! i = Some (Some e) → e = zeros384) idxs →
  default zeros384 <$> foldl (λ filled idx, <[idx := Some zeros384]> filled) filled idxs
  = default zeros384 <$> filled.
Proof.
  revert filled. induction idxs as [|idx idxs IH]; intros filled Hall; cbn [foldl]; [done|].
  apply Forall_cons in Hall as [Hidx Hall]. rewrite IH.
  - rewrite list_fmap_insert. cbn [default].
    destruct (filled !! idx) as [o|] eqn:Ho.
    + apply list_insert_id. rewrite list_lookup_fmap, Ho. cbn.
      destruct o as [e|]; [|done]. by rewrite (Hidx e).
    + apply list_insert_ge. rewrite length_fmap. by apply lookup_ge_None.
  - eapply Forall_impl; [exact Hall|]. cbn. intros i Hi e.
    rewrite list_lookup_insert. case_decide; [by intros [= <-]|]. apply Hi.
Qed.

(** X25: when the embedding model raises on every input, the result
    gives each text the embedding cached under the digest of its cleaned
    form, if the cache is used and has one, and the vector of 384 zeros
    otherwise; the cache is left as it was. *)
Theorem generate_embeddings_provider_fails (self : t) texts use_cache :
  (∀ batch, is_ret (embed_documents self batch) = false) →
  generate_embeddings zero md5_hexdigest self texts use_cache
  = ((λ text, default zeros384
               (if use_cache then cached self (clean text) else None))
       <$> as_list texts,
     self).
Proof.
  intros Hfail. unfold generate_embeddings.
  destruct (as_list texts) as [|text rest] eqn:Htexts; [done|].
  cbn [Chunker.is_nil]. set (cleaned := clean <$> text :: rest).
  assert (Hself : ∀ cache, cache = _cache self →
            {| embed_documents := embed_documents self; _cache := cache |} = self).
  { intros cache ->. by destruct self. }
  destruct use_cache.
  - destruct (scan_loop (_cache self) cleaned 0 [] [] [] eq_refl)
      as (HE & HT & new & HI & Hnew).
    cbn [app] in HE, HT, HI, Hnew.
    set (scanned := foldl _ _ _) in *.
    assert (Hdefault : default zeros384 <$> embeddings scanned
                       = (λ text0, default zeros384 (cached self (clean text0)))
                           <$> text :: rest).
    { rewrite HE. unfold cleaned. rewrite <- !list_fmap_compose. done. }
    destruct (Chunker.is_nil (uncached_texts scanned)).
    { cbn [fst snd]. rewrite Hdefault. by rewrite Hself. }
    specialize (Hfail (uncached_texts scanned)).
    destruct (embed_documents self (uncached_texts scanned)); [done|].
    cbn [fst snd]. rewrite Hself by done. f_equal.
    rewrite zero_loop_default; [done|].
    rewrite HI. eapply Forall_impl; [exact Hnew|]. intros i Hi emb. cbv beta in Hi.
    rewrite HE, Hi. done.
  - cbn [uncached_texts embeddings uncached_indices].
    destruct (Chunker.is_nil cleaned) eqn:Hnil; [done|].
    specialize (Hfail cleaned).
    destruct (embed_documents self cleaned); [done|].
    cbn [fst snd]. rewrite Hself by done. f_equal.
    rewrite zero_loop_default.
    + unfold cleaned. rewrite length_fmap.
      apply list_eq. intros i. rewrite !list_lookup_fmap.
      destruct (decide (i < length (text :: rest))) as [Hi|Hi].
      * rewrite lookup_replicate_2 by done.
        destruct (lookup_lt_is_Some_2 (text :: rest) i Hi) as [x ->]. done.
      * rewrite (proj1 (lookup_replicate_None _ _ _)) by lia.
        rewrite (proj2 (lookup_ge_None _ _)) by lia. done.
    + apply Forall_forall. intros i _ emb Hemb.
      apply lookup_replicate_1 in Hemb as [? _]. done.
Qed.

Lemma all_cached_no_miss (cache : gmap string (list scalar)) (l : list (option string)) :
  Forall (λ text, is_Some (cache !! md5_hexdigest (clean text))) l →
  filter (λ text, cache !! md5_hexdigest text = None) (clean <$> l) = [].
Proof.
  induction 1 as [|x l [e He] _ IH]; [done|].
  cbn [fmap list_fmap]. rewrite filter_cons. case_decide; [congruence|done].
Qed.

Lemma all_cached_values (cache : gmap string (list scalar)) (l : list (option string)) :
  Forall (λ text, is_Some (cache !! md5_hexdigest (clean text))) l →
  default zeros384 <$> ((λ text, cache !! md5_hexdigest text) <$> (clean <$> l))
  = omap (λ text, cache !! md5_hexdigest (clean text)) l.
Proof.
  induction 1 as [|x l [e He] _ IH]; [done|].
  cbn [fmap list_fmap omap list_omap]. rewrite He. cbn [default]. by rewrite IH.
Qed.

(** X26: when the cache is used and holds an embedding for every cleaned
    text, the result is these cached embeddings, in order, and the cache
    is left as it was: the embedding model has no say in it. *)
Theorem generate_embeddings_all_cached (self : t) texts :
  Forall (λ text, is_Some (cached self (clean text))) (as_list texts) →
  generate_embeddings zero md5_hexdigest self texts true
  = (omap (λ text, cached self (clean text)) (as_list texts), self).
Proof.
  intros Hall. unfold generate_embeddings.
  destruct (Chunker.is_nil (as_list texts)) eqn:Hnil.
  { by destruct (as_list texts). }
  destruct (scan_loop (_cache self) (clean <$> as_list texts) 0 [] [] [] eq_refl)
    as (HE & HT & _).
  cbn [app] in HE, HT. rewrite HT, HE.
  rewrite (all_cached_no_miss _ _ Hall). cbn [Chunker.is_nil fst snd].
  rewrite (all_cached_values _ _ Hall). f_equal. by destruct self.
Qed.

Lemma store_loop_no_cache (cleaned : list string) (batch : list (list scalar)) :
  ∀ (m k : nat) (done : list (option (list scalar))) (cache : gmap string (list scalar)),
    length done = k →
    foldl (store_step md5_hexdigest false cleaned) (done ++ replicate m None, cache)
      (zip (seq k m) batch)
    = (done ++ (Some <$> take m batch) ++ replicate (m - length batch) None, cache).
Proof.
  revert batch. intros batch m. revert batch.
  induction m as [|m IH]; intros batch k done cache Hk.
  - cbn. by rewrite take_0.
  - destruct batch as [|e batch].
    + cbn. done.
    + cbn [seq zip zip_with foldl]. unfold store_step at 2. cbn [fst snd].
      cbn [replicate]. rewrite <- Hk, insert_next.
      rewrite IH by (rewrite length_app; cbn; lia).
      rewrite <- app_assoc. done.
Qed.

(** X27: without the cache, when the embedding model returns a batch,
    the result is that batch in order, cut to the number of texts; when
    the batch is shorter than the texts, the texts it does not reach get
    the vector of 384 zeros.  The cache is left as it was. *)
Theorem generate_embeddings_no_cache (self : t) texts batch :
  embed_documents self (clean <$> as_list texts) = Ret batch →
  generate_embeddings zero md5_hexdigest self texts false
  = (take (length (as_list texts)) batch
       ++ replicate (length (as_list texts) - length batch) zeros384,
     self).
Proof.
  intros Hbatch. unfold generate_embeddings.
  destruct (as_list texts) as [|text rest] eqn:Htexts; [done|].
  cbn [Chunker.is_nil]. set (cleaned := clean <$> text :: rest) in *.
  cbn [uncached_texts embeddings uncached_indices].
  destruct (Chunker.is_nil cleaned) eqn:Hnil; [done|]. rewrite Hbatch.
  pose proof (store_loop_no_cache cleaned batch (length cleaned) 0 [] (_cache self) eq_refl)
    as Hloop.
  cbn [app] in Hloop. rewrite Hloop. cbn [fst snd].
  f_equal; [|by destruct self].
  unfold cleaned. rewrite length_fmap, fmap_app, fmap_replicate.
  rewrite <- list_fmap_compose. cbn. by rewrite list_fmap_id.
Qed.

End EmbeddingManagerFacts.

(** * Properties of the document summary *)
Section SummaryFacts.
Context `{Num : Numeric}.
Context (rt : RAG.Runtime).
Import RAG Summary.

(** X28: for a document added with chunks whose join is not empty, when
    the language model is missing, has none of the four generation
    methods, or its method raises, [summarize_document] returns the
    fallback text, which names the file and the number of chunks; once
    the document is removed it returns [Document not found.]. *)
Theorem summarize_falls_back io io' id cs es md (w : VectorStore.World) llm :
  Chunker.is_empty (str_join " " cs) = false →
  (∀ prompt response, summary_generation llm prompt ≠ Some (Ret response)) →
  let added := snd (VectorStore.add_document io id cs es md w) in
  let removed := snd (VectorStore.remove_document io' id added) in
  summarize rt (VectorStore.store added) llm id
  = PStr ("Document Summary" +:+ nl +:+ nl
          +:+ "Filename: "
          +:+ default id (VectorStore.md_filename (default VectorStore.no_metadata md))
          +:+ nl
          +:+ "Content Structure: " +:+ pretty (length cs) +:+ " text sections" +:+ nl
          +:+ fallback_guidance)
  ∧ summarize rt (VectorStore.store removed) llm id = PStr "Document not found.".
Proof.
  intros Htext Hfail. cbn zeta.
  destruct (get_document_added io io' id cs es md w) as [Hget Hgone].
  unfold summarize, summarize_document. rewrite Hget, Hgone. split; [|done].
  cbn [VectorStore.view_text VectorStore.view_chunks VectorStore.view_filename].
  rewrite Htext.
  destruct (summary_generation llm _) as [[response|e]|] eqn:Hgen; [|done|done].
  by destruct (Hfail _ _ Hgen).
Qed.

End SummaryFacts.

(** *** The theorems on the scenario stores *)
Section VectorStoreScenarios.
Import VectorStore Scenario.

Lemma remove_document_missing_witness :
  fst (remove_document WriteCompletes "missing" with_A) = false
  ∧ store (snd (remove_document WriteCompletes "missing" with_A)) = store with_A
  ∧ disk (snd (remove_document WriteCompletes "missing" with_A)) = disk with_A.
Proof. apply remove_document_missing. vm_compute. reflexivity. Defined.

(** [search([1,0], top_k=1)] on the store with [A] returns the [cats]
    chunk with distance [0]. *)
Example search_cats :
  search (store with_A) [1; 0]%Z 1 None
  = Ret [{| doc_id := "A"; chunk := "cats"; score_of := 0%Z |}].
Proof. vm_compute. reflexivity. Qed.

Lemma search_is_document_store_consistent_witness :
  Forall (live (store with_A)) [{| doc_id := "A"; chunk := "cats"; score_of := 0%Z |}]
  ∧ fst (remove_document WriteCompletes "A" with_A_B) = true
  ∧ xb (index (store with_A_B))
      `prefix_of` xb (index (store (run [] (snd (remove_document WriteCompletes "A" with_A_B)))))
  ∧ Forall (λ r, doc_id r ≠ "A") [{| doc_id := "B"; chunk := "dogs"; score_of := 2%Z |}].
Proof.
  split.
  - apply (proj1 search_is_document_store_consistent (store with_A) [1; 0]%Z 1%Z None).
    vm_compute. reflexivity.
  - apply (proj2 search_is_document_store_consistent with_A_B WriteCompletes "A" []
             [1; 0]%Z 2%Z None).
    + vm_compute. reflexivity.
    + constructor.
    + vm_compute. reflexivity.
Defined.

Lemma doc_ids_length_is_ntotal_witness :
  let w := run [AddDocument WriteCompletes "A" ["cats"; "dogs"]
                  (EmbVectors [[1; 0]; [0; 1]]%Z) None;
                RemoveDocument OpenFails "A";
                AddDocument WriteFailsMidway "B" ["x"; "y"] (EmbDict ["x y"] [[1; 1]]%Z) None;
                AddDocument WriteCompletes "C" ["birds"] (EmbVectors [[1; 1]]%Z) None]
             {| store := fresh 2 path; disk := ∅; log := [] |} in
  length (doc_ids (store w)) = ntotal (index (store w)).
Proof. apply doc_ids_length_is_ntotal. repeat constructor. Defined.

(** With [A] removed, the nearest vector to [[1,0]] is the orphan of [A]:
    the one candidate fetched for [top_k = 1] is dropped and nothing is
    returned, although the entry of [B] is live. *)
Lemma search_top_k_counterexample :
  ¬ returns_top_k_live (store with_B_only) [1; 0]%Z 1.
Proof.
  intros Hclaim. destruct Hclaim as (rs & Hs & Hlen).
  - vm_compute. lia.
  - vm_compute in Hs. injection Hs as <-. discriminate Hlen.
Qed.

Lemma search_returns_at_most_top_k_witness :
  length (fetched (store with_B_only) [1; 0]%Z 1)
    ≤ Z.to_nat (Z.min 1 (Z.of_nat (ntotal (index (store with_B_only)))))
  ∧ length (@nil SearchResult) ≤ length (fetched (store with_B_only) [1; 0]%Z 1)
  ∧ Forall (λ r, ∃ hit, hit ∈ fetched (store with_B_only) [1; 0]%Z 1
                        ∧ resolve_hit (store with_B_only) hit = Some r) []
  ∧ (@None score = None → ntotal (index (store with_B_only)) ≠ 0 →
     [] = omap (resolve_hit (store with_B_only)) (fetched (store with_B_only) [1; 0]%Z 1)).
Proof.
  apply (search_returns_at_most_top_k (store with_B_only) [1; 0]%Z 1%Z None []).
  vm_compute. reflexivity.
Defined.

(** A write that fails after [open(..., 'wb')] has truncated the file
    leaves neither the old store file nor the new one. *)
Lemma save_all_or_nothing_counterexample :
  ¬ all_or_nothing with_A (step with_A (RemoveDocument WriteFailsMidway "A")).
Proof.
  intros [Hold|Hnew].
  - vm_compute in Hold. discriminate Hold.
  - unfold persisted in Hnew. vm_compute in Hnew. discriminate Hnew.
Qed.

Lemma mutating_call_saves_in_place_witness :
  let c := RemoveDocument WriteCompletes "A" in
  (io_of c = WriteCompletes → persisted (step with_A c))
  ∧ (io_of c = OpenFails → disk (step with_A c) = disk with_A)
  ∧ (io_of c ≠ WriteCompletes →
     ∃ msg, LogError ("Failed to save vector store: " +:+ msg) ∈ log (step with_A c))
  ∧ store (step with_A c) = store (step with_A (with_io WriteCompletes c)).
Proof.
  apply (mutating_call_saves_in_place with_A (RemoveDocument WriteCompletes "A")).
  vm_compute. reflexivity.
Defined.

Lemma load_never_raises_witness :
  let w := {| store := fresh 2 path; disk := {[ path := Unreadable ]};
              log := [] |} in
  let start := {| store := fresh 2 path; disk := ∅; log := [] |} in
  (store (snd (load start)) = store start
   ∧ log (snd (load start))
     = log start ++ [LogInfo "No vector store found, starting with empty store"])
  ∧ (fst (load w) = Ret () ∧ disk (snd (load w)) = disk w)
  ∧ (documents (store (snd (load w))) = ∅
     ∧ doc_ids (store (snd (load w))) = []
     ∧ ∃ msg, log (snd (load w)) = log w ++ [LogError msg])
  ∧ (fst (__init__ {[ "./data" ]} MakedirsFails 2 path ∅ []) = Ret ()
     ∧ store (snd (__init__ {[ "./data" ]} MakedirsFails 2 path ∅ [])) = fresh 2 path).
Proof.
  intros w start. destruct load_never_raises as (Hret & Hmissing & Hbad & Hstart).
  split_and!.
  - apply (Hmissing start). reflexivity.
  - apply (Hmissing start). reflexivity.
  - apply (Hret w).
  - apply (Hret w).
  - apply (Hbad w Unreadable); [vm_compute; reflexivity|reflexivity].
  - apply (Hbad w Unreadable); [vm_compute; reflexivity|reflexivity].
  - apply (Hbad w Unreadable); [vm_compute; reflexivity|reflexivity].
  - apply (Hstart {[ "./data" ]} MakedirsFails 2 path ∅ []);
      [reflexivity|vm_compute; reflexivity].
  - apply (Hstart {[ "./data" ]} MakedirsFails 2 path ∅ []);
      [reflexivity|vm_compute; reflexivity].
Defined.

End VectorStoreScenarios.

(** *** The chunker on a text without boundaries *)
Section ChunkerScenarios.
Import Chunker.

(** Ten letters and [chunk_size = 3]: one chunk of ten letters. *)
Lemma cut_at_chunk_size_counterexample :
  ¬ cut_at_chunk_size (Str "aaaaaaaaaa") 3 200.
Proof.
  unfold cut_at_chunk_size. vm_compute split_into_chunks.
  intros Hcut. apply Forall_cons in Hcut as [Hlen _].
  vm_compute in Hlen. apply Hlen. reflexivity.
Qed.

(** An oversized paragraph with blanks and without a sentence boundary,
    between two other paragraphs, and [chunk_size = 5]. *)
Lemma split_into_chunks_total_without_cut_witness :
  let text := Str ("Intro." +:+ blank_line +:+ "aaa bbb ccc" +:+ blank_line +:+ "End.") in
  length (split_into_chunks text 5 200) ≤ chunk_bound (ensure_text_is_string text)
  ∧ "aaa bbb ccc" ∈ split_into_chunks text 5 200
  ∧ split_into_chunks (Str "aaaaaaaaaa") 3 200 = ["aaaaaaaaaa"].
Proof.
  intros text. destruct split_into_chunks_total_without_cut as (Hbound & Hwhole & Hone).
  split_and!.
  - apply Hbound.
  - apply (Hwhole text 5%Z 200%Z "aaa bbb ccc").
    + vm_compute. repeat constructor.
    + vm_compute. reflexivity.
    + vm_compute. reflexivity.
  - apply (Hone "aaaaaaaaaa" 3%Z 200%Z).
    + reflexivity.
    + lia.
    + vm_compute. reflexivity.
Defined.

End ChunkerScenarios.

(** *** The upload route and the query on the scenario collaborators *)
Section ServiceScenarios.
Import Scenario.

Lemma first_upload_fails_second_is_known_witness :
  let upload := Routes.upload_file (Num := ZNumeric) digest (λ name, name) extraction
                  embeddings_of in
  let first := upload VectorStore.WriteCompletes 0%Z pdf_upload empty_world in
  let second := upload VectorStore.WriteCompletes 1%Z pdf_upload first.1.2 in
  first.1.1 = Routes.Error 500 "Failed to process file"
  ∧ VectorStore.index (VectorStore.store first.1.2)
    = VectorStore.index (VectorStore.store empty_world)
  ∧ VectorStore.doc_ids (VectorStore.store first.1.2)
    = VectorStore.doc_ids (VectorStore.store empty_world)
  ∧ VectorStore.disk first.1.2 = VectorStore.disk empty_world
  ∧ VectorStore.has_document (VectorStore.store first.1.2)
      (digest [Byte.x25; Byte.x50; Byte.x44; Byte.x46]) = true
  ∧ second = (Routes.AlreadyProcessed (digest [Byte.x25; Byte.x50; Byte.x44; Byte.x46])
                "notes.pdf", first.1.2, []).
Proof.
  apply (first_upload_fails_second_is_known (Num := ZNumeric) digest (λ name, name)
           extraction embeddings_of
           VectorStore.WriteCompletes VectorStore.WriteCompletes 0%Z 1%Z "notes.pdf"
           [Byte.x25; Byte.x50; Byte.x44; Byte.x46]
           ["ERROR: An unexpected error occurred while processing the PDF."]
           [[0; 0]%Z] empty_world).
  all: vm_compute; reflexivity.
Defined.

Lemma query_returns_provider_value_witness :
  RAG.query runtime rag_system "unknown topic" RAG.PNone 3 true = Ret (RAG.PList [])
  ∧ RAG.is_str (RAG.PList []) = false.
Proof.
  apply (query_returns_provider_value runtime rag_system "unknown topic" 3%Z true
           empty_list_model (λ _, Ret (RAG.PList [])) "USER QUESTION: unknown topic"
           (RAG.PList [])).
  all: reflexivity.
Defined.

End ServiceScenarios.

(** *** The further properties on the scenarios *)
Section MoreScenarios.
Import Scenario.

Lemma Z_leb_total (a b : Z) : Z.leb a b = true ∨ Z.leb b a = true.
Proof. destruct (Z.leb_spec a b); [by left|right]. apply Z.leb_le. lia. Qed.

Lemma Z_leb_trans (a b c : Z) :
  Z.leb a b = true → Z.leb b c = true → Z.leb a c = true.
Proof. rewrite !Z.leb_le. lia. Qed.

Lemma search_nothing_to_find_witness :
  VectorStore.search (VectorStore.store empty_world) [1; 0]%Z 5 None = Ret []
  ∧ ∀ rs, VectorStore.search (VectorStore.store without_A) [1; 0]%Z 5 None = Ret rs →
          rs = [].
Proof.
  split.
  - apply (proj1 (search_nothing_to_find (VectorStore.store empty_world)
                    [1; 0]%Z 5%Z None)).
    reflexivity.
  - apply (proj2 (search_nothing_to_find (VectorStore.store without_A)
                    [1; 0]%Z 5%Z None)).
    vm_compute. reflexivity.
Defined.

Lemma search_with_threshold_witness :
  VectorStore.search (VectorStore.store with_A) [1; 0]%Z 2 (Some 1%Z)
  = Ret (filter (λ r, Z.leb (VectorStore.score_of r) 1 = true)
           [{| VectorStore.doc_id := "A"; VectorStore.chunk := "cats";
               VectorStore.score_of := 0%Z |};
            {| VectorStore.doc_id := "A"; VectorStore.chunk := "dogs";
               VectorStore.score_of := 2%Z |}]).
Proof.
  pose proof (search_with_threshold (VectorStore.store with_A) [1; 0]%Z 2%Z 1%Z)
    as Hth.
  assert (Hs : VectorStore.search (VectorStore.store with_A) [1; 0]%Z 2 None
               = Ret [{| VectorStore.doc_id := "A"; VectorStore.chunk := "cats";
                         VectorStore.score_of := 0%Z |};
                      {| VectorStore.doc_id := "A"; VectorStore.chunk := "dogs";
                         VectorStore.score_of := 2%Z |}])
    by (vm_compute; reflexivity).
  rewrite Hs in Hth. exact (proj1 Hth).
Defined.

Lemma search_all_live_witness :
  ∃ rs, VectorStore.search (VectorStore.store with_B_only) [1; 0]%Z 2 None = Ret rs
        ∧ rs ≡ₚ filter (λ r, in_range (VectorStore.score_of r) = true)
                  (VectorStore.live_hits (VectorStore.store with_B_only) [1; 0]%Z).
Proof.
  apply (search_all_live (VectorStore.store with_B_only) [1; 0]%Z 2%Z).
  - reflexivity.
  - vm_compute. discriminate.
Defined.

Lemma search_results_ascending_witness :
  StronglySorted VectorStore.by_score
    [{| VectorStore.doc_id := "A"; VectorStore.chunk := "dogs";
        VectorStore.score_of := 0%Z |};
     {| VectorStore.doc_id := "A"; VectorStore.chunk := "cats";
        VectorStore.score_of := 2%Z |}].
Proof.
  apply (search_results_ascending (Num := ZNumeric) Z_leb_total Z_leb_trans
           (VectorStore.store with_A) [0; 1]%Z 2%Z None).
  vm_compute. reflexivity.
Defined.

Lemma add_document_then_search_witness :
  ∃ rs, VectorStore.search (VectorStore.store with_A) [1; 0]%Z 2 None = Ret rs
    ∧ ∀ i c v, ["cats"; "dogs"] !! i = Some c →
        [[1; 0]; [0; 1]]%Z !! i = Some v →
        in_range (z_l2_distance [1; 0]%Z v) = true →
        {| VectorStore.doc_id := "A"; VectorStore.chunk := c;
           VectorStore.score_of := z_l2_distance [1; 0]%Z v |} ∈ rs.
Proof.
  apply (add_document_then_search (Num := ZNumeric) VectorStore.WriteCompletes "A"
           ["cats"; "dogs"] (VectorStore.EmbVectors (Num := ZNumeric) [[1; 0]; [0; 1]]%Z) None
           empty_world with_A "A" [1; 0]%Z 2%Z).
  - vm_compute. reflexivity.
  - reflexivity.
  - reflexivity.
  - vm_compute. discriminate.
Defined.

Lemma remove_document_existing_witness :
  let w' := snd (VectorStore.remove_document VectorStore.OpenFails "A" with_A_B) in
  fst (VectorStore.remove_document VectorStore.OpenFails "A" with_A_B) = true
  ∧ VectorStore.has_document (VectorStore.store w') "A" = false
  ∧ (∀ id', id' ≠ "A" →
       VectorStore.documents (VectorStore.store w') !! id'
       = VectorStore.documents (VectorStore.store with_A_B) !! id')
  ∧ VectorStore.doc_ids (VectorStore.store w')
    = VectorStore.doc_ids (VectorStore.store with_A_B)
  ∧ VectorStore.index (VectorStore.store w')
    = VectorStore.index (VectorStore.store with_A_B).
Proof.
  apply (remove_document_existing VectorStore.OpenFails "A" with_A_B).
  vm_compute. reflexivity.
Defined.

Lemma add_document_raises_keeps_record_witness :
  let w' := snd (VectorStore.add_document VectorStore.WriteCompletes "C" ["x"]
                   (VectorStore.EmbVectors (Num := ZNumeric) [[1; 2; 3]%Z]) None with_A) in
  VectorStore.has_document (VectorStore.store w') "C" = true
  ∧ (∀ id', id' ≠ "C" →
       VectorStore.documents (VectorStore.store w') !! id'
       = VectorStore.documents (VectorStore.store with_A) !! id')
  ∧ VectorStore.doc_ids (VectorStore.store w')
    = VectorStore.doc_ids (VectorStore.store with_A)
  ∧ VectorStore.index (VectorStore.store w') = VectorStore.index (VectorStore.store with_A)
  ∧ VectorStore.disk w' = VectorStore.disk with_A
  ∧ VectorStore.log w' = VectorStore.log with_A.
Proof.
  apply (add_document_raises_keeps_record (Num := ZNumeric) VectorStore.WriteCompletes
           "C" ["x"] (VectorStore.EmbVectors (Num := ZNumeric) [[1; 2; 3]%Z]) None with_A).
  vm_compute. reflexivity.
Defined.

Lemma restart_after_completed_write_witness :
  let c := VectorStore.RemoveDocument VectorStore.WriteCompletes "A" in
  let restarted := VectorStore.init 7 path
                     (VectorStore.disk (VectorStore.step with_A_B c)) [] in
  fst restarted = Ret ()
  ∧ VectorStore.documents (VectorStore.store (snd restarted))
    = VectorStore.documents (VectorStore.store (VectorStore.step with_A_B c))
  ∧ VectorStore.doc_ids (VectorStore.store (snd restarted))
    = VectorStore.doc_ids (VectorStore.store (VectorStore.step with_A_B c))
  ∧ VectorStore.index (VectorStore.store (snd restarted))
    = VectorStore.index (VectorStore.store (VectorStore.step with_A_B c)).
Proof.
  apply (restart_after_completed_write with_A_B
           (VectorStore.RemoveDocument VectorStore.WriteCompletes "A") 7 []).
  - vm_compute. reflexivity.
  - reflexivity.
Defined.

Lemma restart_after_failed_write_witness :
  let c := VectorStore.RemoveDocument VectorStore.WriteFailsMidway "A" in
  let restarted := VectorStore.init 2 path
                     (VectorStore.disk (VectorStore.step with_A_B c)) [] in
  fst restarted = Ret ()
  ∧ VectorStore.documents (VectorStore.store (snd restarted)) = ∅
  ∧ VectorStore.doc_ids (VectorStore.store (snd restarted)) = []
  ∧ VectorStore.ntotal (VectorStore.index (VectorStore.store (snd restarted))) = 0
  ∧ ∃ msg, VectorStore.log (snd restarted) = [] ++ [LogError msg].
Proof.
  apply (restart_after_failed_write with_A_B
           (VectorStore.RemoveDocument VectorStore.WriteFailsMidway "A") 2 []).
  - vm_compute. reflexivity.
  - reflexivity.
Defined.

(** The one vector of [with_far] is out of range of the query: the search
    returns nothing, although the document is in the store. *)
Lemma search_skips_out_of_range_witness :
  Forall (λ r, in_range (VectorStore.score_of r) = true
               ∧ ∃ hit, hit ∈ VectorStore.all_hits
                                (VectorStore.index (VectorStore.store with_A)) [1; 0]%Z
                        ∧ VectorStore.resolve_hit (VectorStore.store with_A) hit = Some r)
    [{| VectorStore.doc_id := "A"; VectorStore.chunk := "cats";
        VectorStore.score_of := 0%Z |}]
  ∧ (VectorStore.has_document (VectorStore.store with_far) "G" = true
     ∧ ∀ rs, VectorStore.search (VectorStore.store with_far) [- 10 ^ 20; 0]%Z 1 None
             = Ret rs → rs = []).
Proof.
  split; [|split].
  - apply (proj1 (search_skips_out_of_range (VectorStore.store with_A)
                    [1; 0]%Z 1%Z None)).
    vm_compute. reflexivity.
  - vm_compute. reflexivity.
  - apply (proj2 (search_skips_out_of_range (VectorStore.store with_far)
                    [- 10 ^ 20; 0]%Z 1%Z None)).
    vm_compute. reflexivity.
Defined.

Lemma constructor_directory_step_witness :
  VectorStore.__init__ (Num := ZNumeric) {[ "./data" ]} VectorStore.MakedirsCompletes 2
    "store.pkl" ∅ []
  = (Raise (Exception "[Errno 2] No such file or directory: ''"),
     {| VectorStore.store := VectorStore.fresh 2 "store.pkl";
        VectorStore.disk := ∅; VectorStore.log := [] |})
  ∧ VectorStore.__init__ (Num := ZNumeric) {[ "./data" ]} VectorStore.MakedirsFails 2
      path ∅ []
    = VectorStore.init 2 path ∅ []
  ∧ VectorStore.__init__ (Num := ZNumeric) ∅ VectorStore.MakedirsCompletes 2 path ∅ []
    = VectorStore.init 2 path ∅
        ([] ++ [LogInfo ("Created directory for vector store: "
                         +:+ VectorStore.dirname path)]).
Proof.
  split; [|split].
  - apply (constructor_directory_step (Num := ZNumeric) {[ "./data" ]}
             VectorStore.MakedirsCompletes 2 "store.pkl" ∅ []).
    reflexivity.
  - apply (constructor_directory_step (Num := ZNumeric) {[ "./data" ]}
             VectorStore.MakedirsFails 2 path ∅ []).
    vm_compute. reflexivity.
  - apply (constructor_directory_step (Num := ZNumeric) ∅
             VectorStore.MakedirsCompletes 2 path ∅ []).
    + vm_compute. reflexivity.
    + vm_compute. discriminate.
Defined.

Lemma split_into_chunks_blank_witness :
  Chunker.split_into_chunks (Chunker.Str "   ") 10 0 = [].
Proof. apply (split_into_chunks_blank "   " 10%Z 0%Z). reflexivity. Defined.

Lemma split_into_chunks_short_witness :
  Chunker.split_into_chunks (Chunker.Str " one small paragraph ") 100 20
  = [Chunker.strip " one small paragraph "].
Proof.
  apply (split_into_chunks_short " one small paragraph " 100%Z 20%Z).
  - reflexivity.
  - reflexivity.
  - vm_compute. discriminate.
Defined.

Lemma allowed_file_last_extension_witness :
  Routes.allowed_file ("report.v2" +:+ String "."%char "PDF")
  = String.eqb (Routes.lower "PDF") "pdf"
  ∧ Routes.allowed_file "README" = false.
Proof.
  split.
  - apply (proj1 allowed_file_last_extension "report.v2" "PDF"). reflexivity.
  - apply (proj2 allowed_file_last_extension "README"). reflexivity.
Defined.

Lemma upload_never_indexes_witness :
  let answer := Routes.upload_file (Num := ZNumeric) digest (λ name, name) extraction
                  embeddings_of VectorStore.WriteCompletes 0%Z
                  {| Routes.file := Some ("notes.txt", [Byte.x25]) |} with_A in
  answer.1.2 = with_A ∧ (answer.2 = [] ∨ answer.2 = [Routes.TextExtraction]).
Proof.
  intros answer.
  destruct (upload_never_indexes (Num := ZNumeric) digest (λ name, name) extraction
              embeddings_of VectorStore.WriteCompletes 0%Z
              {| Routes.file := Some ("notes.txt", [Byte.x25]) |} with_A)
    as (_ & _ & _ & Hsame & Heffects).
  split.
  - apply Hsame. left. reflexivity.
  - apply Heffects. reflexivity.
Defined.

Lemma text_model_is_text_provider : RAG.text_provider (Num := ZNumeric) text_model.
Proof. intros prompt response [= <-]. reflexivity. Qed.

Lemma query_returns_text_witness :
  ∃ answer,
    RAG.query runtime
      (RAG.init None failing_retriever (Some encoder) (Some text_model))
      "what is this?" RAG.PNone 3 true
    = Ret (RAG.PStr answer).
Proof.
  apply (query_returns_text runtime
           (RAG.init None failing_retriever (Some encoder) (Some text_model))
           "what is this?" RAG.PNone 3%Z true).
  exact text_model_is_text_provider.
Defined.

Lemma query_without_embedding_witness :
  let unable := RAG.PStr "Unable to generate embedding for your question. Please check embedding model configuration." in
  RAG.query runtime (RAG.init None empty_retriever None (Some text_model))
    "what is this?" RAG.PNone 3 true = Ret unable
  ∧ RAG.query runtime
      (RAG.init (Some encoder) empty_retriever (Some mute_model) (Some text_model))
      "what is this?" RAG.PNone 3 true = Ret unable.
Proof.
  apply (query_without_embedding runtime (Some encoder) empty_retriever mute_model
           (Some text_model) "what is this?" RAG.PNone 3%Z true).
  - reflexivity.
  - repeat split.
Defined.

Lemma query_retrieval_failure_witness :
  RAG.query runtime
    (RAG.init None failing_retriever (Some encoder) (Some text_model))
    "what is this?" RAG.PNone 3 true
  = Ret (RAG.PStr ("Sorry, I encountered an error: "
                   +:+ "Vector store doesn't support search or similarity_search methods")).
Proof.
  apply (query_retrieval_failure runtime
           (RAG.init None failing_retriever (Some encoder) (Some text_model))
           "what is this?" RAG.PNone 3%Z true (Exception "index is closed")).
  - reflexivity.
  - reflexivity.
  - reflexivity.
Defined.

Lemma chunk_text_degenerate_step_witness :
  is_ret (PDFProcessor._chunk_text 200 200 "some page text" 0 "doc" "doc.pdf") = false
  ∧ PDFProcessor._chunk_text 200 300 "some page text" 0 "doc" "doc.pdf" = Ret [].
Proof.
  split.
  - apply (proj1 (chunk_text_degenerate_step 200 200 "some page text" 0 "doc" "doc.pdf")).
    reflexivity.
  - apply (proj2 (chunk_text_degenerate_step 200 300 "some page text" 0 "doc" "doc.pdf")).
    lia.
Defined.

Lemma chunk_text_bounds_witness :
  ∃ docs,
    PDFProcessor._chunk_text 10 3 "abcdefghijklmnopqrstuvwxyz" 0 "doc" "doc.pdf" = Ret docs
    ∧ (Z.of_nat (length docs)
       <= (Chunker.len "abcdefghijklmnopqrstuvwxyz" + (10 - 3) - 1) / (10 - 3))%Z
    ∧ Forall (λ doc, (Chunker.len (PDFProcessor.page_content doc) <= 10)%Z
                     ∧ Chunker.is_empty (Chunker.strip (PDFProcessor.page_content doc))
                       = false) docs.
Proof.
  apply (chunk_text_bounds 10 3 "abcdefghijklmnopqrstuvwxyz" 0 "doc" "doc.pdf"); lia.
Defined.

Lemma chunk_text_ids_collide_witness :
  ∃ first second rest,
    PDFProcessor._chunk_text 10 3 "abcdefghijklmnopqrstuvwxyz" 0 "doc" "doc.pdf"
    = Ret (first :: second :: rest)
    ∧ PDFProcessor.page_content first
      = PDFProcessor.slice "abcdefghijklmnopqrstuvwxyz" 0 (0 + 10)
    ∧ PDFProcessor.page_content second
      = PDFProcessor.slice "abcdefghijklmnopqrstuvwxyz" (10 - 3) (10 - 3 + 10)
    ∧ PDFProcessor.md_id first = PDFProcessor.md_id second
    ∧ PDFProcessor.md_chunk first = 0%Z ∧ PDFProcessor.md_chunk second = 0%Z.
Proof.
  apply (chunk_text_ids_collide 10 3 "abcdefghijklmnopqrstuvwxyz" 0 "doc" "doc.pdf").
  - lia.
  - lia.
  - vm_compute. reflexivity.
  - vm_compute. reflexivity.
  - vm_compute. reflexivity.
Defined.

Lemma generate_embeddings_provider_fails_witness :
  EmbeddingManager.generate_embeddings (Num := ZNumeric) 0%Z key_of failing_manager
    (EmbeddingManager.TextList [Some " hello "; None; Some "world"]) true
  = ((λ text, default (EmbeddingManager.zeros 0%Z)
               (EmbeddingManager._cache failing_manager
                  !! key_of (EmbeddingManager.clean text)))
       <$> [Some " hello "; None; Some "world"],
     failing_manager).
Proof.
  apply (generate_embeddings_provider_fails (Num := ZNumeric) 0%Z key_of failing_manager
           (EmbeddingManager.TextList [Some " hello "; None; Some "world"]) true).
  intros batch. reflexivity.
Defined.

Lemma generate_embeddings_all_cached_witness :
  EmbeddingManager.generate_embeddings (Num := ZNumeric) 0%Z key_of failing_manager
    (EmbeddingManager.OneText " hello ") true
  = (omap (λ text, EmbeddingManager._cache failing_manager
                     !! key_of (EmbeddingManager.clean text))
       [Some " hello "],
     failing_manager).
Proof.
  apply (generate_embeddings_all_cached (Num := ZNumeric) 0%Z key_of failing_manager
           (EmbeddingManager.OneText " hello ")).
  repeat constructor. vm_compute. eauto.
Defined.

Lemma generate_embeddings_no_cache_witness :
  EmbeddingManager.generate_embeddings (Num := ZNumeric) 0%Z key_of short_manager
    (EmbeddingManager.TextList [Some "a"; Some "b"]) false
  = (take 2 [[7; 7]%Z] ++ replicate (2 - 1) (EmbeddingManager.zeros 0%Z),
     short_manager).
Proof.
  apply (generate_embeddings_no_cache (Num := ZNumeric) 0%Z key_of short_manager
           (EmbeddingManager.TextList [Some "a"; Some "b"]) [[7; 7]%Z]).
  reflexivity.
Defined.

Lemma summarize_falls_back_witness :
  let added := snd (VectorStore.add_document VectorStore.WriteCompletes "A"
                      ["cats"; "dogs"] (VectorStore.EmbVectors (Num := ZNumeric) [[1; 0]; [0; 1]]%Z)
                      None empty_world) in
  let removed := snd (VectorStore.remove_document VectorStore.WriteCompletes "A" added) in
  Summary.summarize runtime (VectorStore.store added) None "A"
  = RAG.PStr ("Document Summary" +:+ Summary.nl +:+ Summary.nl
              +:+ "Filename: " +:+ "A" +:+ Summary.nl
              +:+ "Content Structure: " +:+ pretty 2 +:+ " text sections" +:+ Summary.nl
              +:+ Summary.fallback_guidance)
  ∧ Summary.summarize runtime (VectorStore.store removed) None "A"
    = RAG.PStr "Document not found.".
Proof.
  apply (summarize_falls_back (Num := ZNumeric) runtime VectorStore.WriteCompletes
           VectorStore.WriteCompletes "A" ["cats"; "dogs"]
           (VectorStore.EmbVectors (Num := ZNumeric) [[1; 0]; [0; 1]]%Z) None empty_world None).
  - reflexivity.
  - intros prompt response. discriminate.
Defined.

End MoreScenarios.
